(** * OAuth 1.0a client (oauth1.go): signer, flow controller, pending-token store

    A shallow embedding of [oauth1.go].  Go strings are byte sequences and are
    modelled by [string] (a list of 8-bit [ascii]); Go maps [map[string]string]
    are [gmap string string]; the process-wide [tokenCache] is threaded as
    explicit state. *)

From Stdlib Require Import ZArith NArith Ascii String List DecimalString Sorting.Sorted Sorting.Permutation Lia.
From stdpp Require Import base gmap strings list fin_maps sorting.

Local Open Scope string_scope.
Local Open Scope Z_scope.

(** ** Bytes and strings *)

Definition byte_val (c : ascii) : Z := Z.of_N (N_of_ascii c).
Definition byte_of (z : Z) : ascii := ascii_of_N (Z.to_N (z mod 256)).

(** [len(s)] in Go. *)
Definition len (s : string) : Z := Z.of_nat (String.length s).

(** The double quote byte, written through its code. *)
Definition dquote : string := String (ascii_of_nat 34) EmptyString.

Fixpoint concat_map (f : ascii -> string) (s : string) : string :=
  match s with
  | EmptyString => EmptyString
  | String c r => f c ++ concat_map f r
  end.

(** [strings.Join]. *)
Fixpoint join (sep : string) (l : list string) : string :=
  match l with
  | [] => ""
  | [x] => x
  | x :: r => x ++ sep ++ join sep r
  end.

(** ** net/url: QueryEscape

    [url.QueryEscape(s)] is [escape(s, encodeQueryComponent)] of Go's net/url:
    a byte is kept when [shouldEscape] is false for it, a space becomes '+',
    and every other byte becomes '%' followed by two upper-case hex digits. *)
Module url.

Definition upperhex : string := "0123456789ABCDEF".

Definition hexdigit (z : Z) : ascii :=
  match String.get (Z.to_nat z) upperhex with
  | Some c => c
  | None => "0"%char
  end.

Definition between (lo hi c : ascii) : bool :=
  (byte_val lo <=? byte_val c) && (byte_val c <=? byte_val hi).

(** [shouldEscape(c, encodeQueryComponent)]. *)
Definition shouldEscape (c : ascii) : bool :=
  if between "a" "z" c || between "A" "Z" c || between "0" "9" c then false
  else if Ascii.eqb c "-" || Ascii.eqb c "_" || Ascii.eqb c "." || Ascii.eqb c "~"
       then false
       else true.

Definition escape_byte (c : ascii) : string :=
  if Ascii.eqb c " " then "+"
  else if shouldEscape c
       then String "%" (String (hexdigit (Z.shiftr (byte_val c) 4))
                        (String (hexdigit (Z.land (byte_val c) 15)) ""))
       else String c "".

Definition QueryEscape (s : string) : string := concat_map escape_byte s.

End url.

(** ** sort.StringSlice(keys).Sort()

    Go compares strings with [<], byte-wise.  The library sort is modelled by
    an insertion sort; [sort_unique] below shows that any sorting algorithm
    gives the same slice on keys that are pairwise different. *)
Module sort.

Definition less (a b : string) : bool := String.ltb a b.

Fixpoint insert (k : string) (l : list string) : list string :=
  match l with
  | [] => [k]
  | x :: r => if less x k then x :: insert k r else k :: l
  end.

Fixpoint Strings (l : list string) : list string :=
  match l with
  | [] => []
  | x :: r => insert x (Strings r)
  end.

End sort.

(** ** The signer: base string and Authorization header *)

(** [for key, _ := range params]: Go fixes no iteration order, so the flow is
    parameterised by the order in which the keys come out. *)
Definition iteration_order := forall A : Type, gmap string A -> list string.

Definition valid_order (range : iteration_order) : Prop :=
  forall A (m : gmap string A), Permutation (range A m) (map fst (map_to_list m)).

Definition param (params : gmap string string) (key : string) : string :=
  default "" (params !! key).

(** The loop of [requestString] over the sorted keys; [pos] is the index. *)
Fixpoint requestString_loop (params : gmap string string) (pos : nat)
    (keys : list string) (result : string) : string :=
  match keys with
  | [] => result
  | key :: rest =>
      let result := if Nat.eqb pos 0 then result ++ "&"
                    else result ++ url.QueryEscape "&" in
      let result := result ++ url.QueryEscape (key ++ "=" ++ url.QueryEscape (param params key)) in
      requestString_loop params (S pos) rest result
  end.

Definition requestString (range : iteration_order) (method uri : string)
    (params : gmap string string) : string :=
  let keys := sort.Strings (range _ params) in
  let result := method ++ "&" ++ url.QueryEscape uri in
  requestString_loop params 0 keys result.

Fixpoint authorizationString_loop (params : gmap string string) (pos : nat)
    (keys : list string) (result : string) : string :=
  match keys with
  | [] => result
  | key :: rest =>
      let result := if Nat.ltb 0 pos then result ++ "," else result in
      let result := result ++ (key ++ "=" ++ dquote ++ param params key ++ dquote) in
      authorizationString_loop params (S pos) rest result
  end.

Definition authorizationString (range : iteration_order)
    (params : gmap string string) : string :=
  let keys := sort.Strings (range _ params) in
  authorizationString_loop params 0 keys "OAuth ".

(** The order in which stdpp enumerates a map, one valid iteration order. *)
Definition range_default : iteration_order := fun A m => map fst (map_to_list m).

(** ** crypto/sha1

    SHA-1 on 32-bit words held in [Z], every addition and rotation reduced
    modulo 2^32.  A digest object is the sequence of bytes written so far. *)
Module sha1.

Definition Size : Z := 20.
Definition BlockSize : Z := 64.

Definition u32 (x : Z) : Z := x mod 4294967296.
Definition add32 (x y : Z) : Z := u32 (x + y).
Definition not32 (x : Z) : Z := 4294967295 - x.
Definition RotateLeft32 (x : Z) (k : Z) : Z :=
  Z.lor (u32 (Z.shiftl x k)) (Z.shiftr x (32 - k)).

Definition K0 : Z := 1518500249.
Definition K1 : Z := 1859775393.
Definition K2 : Z := 2400959708.
Definition K3 : Z := 3395469782.

Definition init : list Z :=
  [1732584193; 4023233417; 2562383102; 271733878; 3285377520].

Definition bytes_of (s : string) : list Z := map byte_val (list_ascii_of_string s).
Definition string_of (l : list Z) : string := string_of_list_ascii (map byte_of l).

(** Big-endian encodings of a 32-bit and of a 64-bit value. *)
Definition be32 (x : Z) : list Z :=
  [Z.land (Z.shiftr x 24) 255; Z.land (Z.shiftr x 16) 255;
   Z.land (Z.shiftr x 8) 255; Z.land x 255].
Definition be64 (x : Z) : list Z := (be32 (Z.shiftr x 32) ++ be32 (u32 x))%list.

Definition word_of (b0 b1 b2 b3 : Z) : Z :=
  Z.lor (Z.lor (Z.lor (Z.shiftl b0 24) (Z.shiftl b1 16)) (Z.shiftl b2 8)) b3.

Fixpoint words_of (n : nat) (p : list Z) : list Z :=
  match n, p with
  | S n', b0 :: b1 :: b2 :: b3 :: r => word_of b0 b1 b2 b3 :: words_of n' r
  | _, _ => []
  end.

(** The round function and constant of round [i]. *)
Definition round_f (i b c d : Z) : Z :=
  if i <? 20 then Z.lor (Z.land b c) (Z.land (not32 b) d)
  else if i <? 40 then Z.lxor (Z.lxor b c) d
  else if i <? 60 then Z.lor (Z.land (Z.lor b c) d) (Z.land b c)
  else Z.lxor (Z.lxor b c) d.

Definition round_k (i : Z) : Z :=
  if i <? 20 then K0 else if i <? 40 then K1 else if i <? 60 then K2 else K3.

(** The message schedule, most recent word first: [w] holds the sixteen
    words of the circular buffer, [nth 2 w] being the word of round i-3. *)
Definition next_word (w : list Z) : Z :=
  RotateLeft32 (Z.lxor (Z.lxor (Z.lxor (nth 2 w 0) (nth 7 w 0)) (nth 13 w 0)) (nth 15 w 0)) 1.

Record regs := Regs { ra : Z; rb : Z; rc : Z; rd : Z; re : Z }.

Definition step (i : Z) (wi : Z) (r : regs) : regs :=
  let f := round_f i (rb r) (rc r) (rd r) in
  let t := add32 (add32 (add32 (add32 (RotateLeft32 (ra r) 5) f) (re r)) wi) (round_k i) in
  Regs t (ra r) (RotateLeft32 (rb r) 30) (rc r) (rd r).

(** Rounds [i .. i+n-1]; [front] are the words of the block not yet used
    (rounds 0..15), after which the schedule is extended. *)
Fixpoint rounds (n : nat) (i : Z) (front : list Z) (w : list Z) (r : regs) : regs :=
  match n with
  | O => r
  | S n' =>
      match front with
      | wi :: front' => rounds n' (i + 1) front' (wi :: w) (step i wi r)
      | [] => let wi := next_word w in
              rounds n' (i + 1) [] (wi :: firstn 15 w) (step i wi r)
      end
  end.

Definition block1 (h : list Z) (p : list Z) : list Z :=
  match h with
  | [h0; h1; h2; h3; h4] =>
      let r := rounds 80 0 (words_of 16 p) [] (Regs h0 h1 h2 h3 h4) in
      [add32 h0 (ra r); add32 h1 (rb r); add32 h2 (rc r); add32 h3 (rd r); add32 h4 (re r)]
  | _ => h
  end.

(** [block]: consume the 64-byte chunks of [p]. *)
Fixpoint block (n : nat) (h : list Z) (p : list Z) : list Z :=
  match n with
  | O => h
  | S n' => block n' (block1 h (firstn 64 p)) (skipn 64 p)
  end.

(** Padding of [checkSum]: 0x80, zeros up to 56 mod 64, the bit length. *)
Definition padding (length : Z) : list Z :=
  let r := length mod 64 in
  let npad := if r <? 56 then 56 - r else 64 + 56 - r in
  (128 :: repeat 0 (Z.to_nat (npad - 1)) ++ be64 (Z.shiftl length 3 mod 18446744073709551616))%list.

Definition sum_bytes (data : list Z) : list Z :=
  let n := Z.of_nat (List.length data) in
  let p := (data ++ padding n)%list in
  let h := block (List.length p / 64) init p in
  concat (map be32 h).

(** [sha1.Sum] of a byte string, as a 20-byte string. *)
Definition Sum (data : string) : string := string_of (sum_bytes (bytes_of data)).

(** The [hash.Hash] object returned by [sha1.New]. *)
Record digest := Digest { written : string }.
Definition New : digest := Digest "".
Definition Write (d : digest) (p : string) : digest := Digest (written d ++ p).
Definition Reset (d : digest) : digest := Digest "".
Definition digest_Sum (d : digest) (b : string) : string := b ++ Sum (written d).

End sha1.

(** ** crypto/hmac *)
Module hmac.

Record t := Hmac { opad : string; ipad : string; outer : sha1.digest; inner : sha1.digest }.

Definition xor_byte (k : Z) (c : ascii) : ascii := byte_of (Z.lxor (byte_val c) k).

Fixpoint xor_bytes (k : Z) (s : string) : string :=
  match s with
  | EmptyString => EmptyString
  | String c r => String (xor_byte k c) (xor_bytes k r)
  end.

Fixpoint zeros (n : nat) : string :=
  match n with
  | O => EmptyString
  | S n' => String (byte_of 0) (zeros n')
  end.

(** [copy(pad, key)] into a zeroed buffer of [blocksize] bytes. *)
Definition pad_key (key : string) : string :=
  key ++ zeros (Z.to_nat sha1.BlockSize - String.length key).

(** [hmac.New(sha1.New, key)]. *)
Definition New (key : string) : t :=
  let outer := sha1.New in
  let inner := sha1.New in
  let '(outer, key) :=
    if sha1.BlockSize <? len key
    then let outer := sha1.Write outer key in (outer, sha1.digest_Sum outer "")
    else (outer, key) in
  let ipad := xor_bytes 54 (pad_key key) in
  let opad := xor_bytes 92 (pad_key key) in
  Hmac opad ipad outer (sha1.Write inner ipad).

Definition Write (h : t) (p : string) : t :=
  Hmac (opad h) (ipad h) (outer h) (sha1.Write (inner h) p).

(** [h.Sum(nil)]; the object after the call is not needed by [sign]. *)
Definition Sum (h : t) : string :=
  let inb := sha1.digest_Sum (inner h) "" in
  let outer := sha1.Reset (outer h) in
  let outer := sha1.Write outer (opad h) in
  let outer := sha1.Write outer inb in
  sha1.digest_Sum outer "".

(** HMAC as RFC 2104 states it: H(K0 xor opad || H(K0 xor ipad || text)),
    K0 being the key, hashed first when longer than a block, zero-padded. *)
Definition rfc2104 (key text : string) : string :=
  let k := if sha1.BlockSize <? len key then sha1.Sum key else key in
  let k0 := pad_key k in
  sha1.Sum (xor_bytes 92 k0 ++ sha1.Sum (xor_bytes 54 k0 ++ text)).

End hmac.

(** ** encoding/base64, StdEncoding *)
Module base64.

Definition encodeStd : string :=
  "ABCDEFGHIJKLMNOPQRSTUVWXYZabcdefghijklmnopqrstuvwxyz0123456789+/".

Definition enc (v : Z) : ascii :=
  match String.get (Z.to_nat (Z.land v 63)) encodeStd with
  | Some c => c
  | None => "="%char
  end.

Definition EncodedLen (n : Z) : Z := (n + 2) / 3 * 4.

(** The bytes [Encode] writes to [dst], in order. *)
Fixpoint Encode (src : list Z) : string :=
  match src with
  | [] => ""
  | [b0] =>
      let val := Z.shiftl b0 16 in
      String (enc (Z.shiftr val 18)) (String (enc (Z.shiftr val 12)) "==")
  | [b0; b1] =>
      let val := Z.lor (Z.shiftl b0 16) (Z.shiftl b1 8) in
      String (enc (Z.shiftr val 18)) (String (enc (Z.shiftr val 12))
        (String (enc (Z.shiftr val 6)) "="))
  | b0 :: b1 :: b2 :: r =>
      let val := Z.lor (Z.lor (Z.shiftl b0 16) (Z.shiftl b1 8)) b2 in
      String (enc (Z.shiftr val 18)) (String (enc (Z.shiftr val 12))
        (String (enc (Z.shiftr val 6)) (String (enc val) (Encode r))))
  end.

(** Writing [w] over the front of the buffer [dst]. *)
Fixpoint overwrite (dst w : string) : string :=
  match w, dst with
  | EmptyString, _ => dst
  | String c w', String _ dst' => String c (overwrite dst' w')
  | String c w', EmptyString => EmptyString
  end.

End base64.

(** ** sign *)
Definition sign (message key : string) : string :=
  let hashfun := hmac.New key in
  let hashfun := hmac.Write hashfun message in
  let rawsignature := hmac.Sum hashfun in
  let base64signature := hmac.zeros (Z.to_nat (base64.EncodedLen (len rawsignature))) in
  let base64signature :=
    base64.overwrite base64signature (base64.Encode (sha1.bytes_of rawsignature)) in
  base64signature.

(** ** strconv.FormatInt(i, 10) *)
Module strconv.

Definition FormatInt (i : Z) : string := NilZero.string_of_int (Z.to_int i).

End strconv.

(** ** net/url: Values, ParseQuery, QueryUnescape *)

(** Go [error] values that the flows can return. *)
Inductive error :=
  | EscapeError (s : string)          (* net/url: invalid URL escape *)
  | SemicolonError                    (* net/url: invalid semicolon separator *)
  | ErrorString (s : string)          (* errors.New(s) *)
  | TransportError (s : string).      (* whatever the HTTP client reports *)

Module Values.

(** [url.Values], a [map[string][]string]. *)
Definition t := gmap string (list string).

Definition Get (v : t) (key : string) : string :=
  match default [] (v !! key) with
  | [] => ""
  | x :: _ => x
  end.

Definition Add (v : t) (key value : string) : t :=
  <[key := (default [] (v !! key) ++ [value])%list]> v.

End Values.

Module urlquery.

Definition ishex (c : ascii) : bool :=
  url.between "0" "9" c || url.between "a" "f" c || url.between "A" "F" c.

Definition unhex (c : ascii) : Z :=
  if url.between "0" "9" c then byte_val c - byte_val "0"
  else if url.between "a" "f" c then byte_val c - byte_val "a" + 10
  else if url.between "A" "F" c then byte_val c - byte_val "A" + 10
  else 0.

Definition take3 (s : string) : string := String.substring 0 3 s.

(** [QueryUnescape]: '+' is a space, "%XX" a byte; a '%' that is not followed
    by two hex digits is an [EscapeError] carrying the offending text. *)
Fixpoint QueryUnescape (s : string) : string + error :=
  match s with
  | EmptyString => inl EmptyString
  | String c r =>
      if Ascii.eqb c "%" then
        match r with
        | String h1 (String h2 r') =>
            if ishex h1 && ishex h2 then
              match QueryUnescape r' with
              | inl t => inl (String (byte_of (Z.lor (Z.shiftl (unhex h1) 4) (unhex h2))) t)
              | inr e => inr e
              end
            else inr (EscapeError (take3 s))
        | _ => inr (EscapeError (take3 s))
        end
      else
        match QueryUnescape r with
        | inl t => inl (String (if Ascii.eqb c "+" then " "%char else c) t)
        | inr e => inr e
        end
  end.

(** [strings.Cut(s, sep)] for a one-byte separator. *)
Fixpoint Cut (sep : ascii) (s : string) : string * string :=
  match s with
  | EmptyString => (EmptyString, EmptyString)
  | String c r =>
      if Ascii.eqb c sep then (EmptyString, r)
      else let '(a, b) := Cut sep r in (String c a, b)
  end.

Fixpoint Contains (sep : ascii) (s : string) : bool :=
  match s with
  | EmptyString => false
  | String c r => Ascii.eqb c sep || Contains sep r
  end.

(** The pieces [key, query, _ = strings.Cut(query, "&")] yields one after the
    other while [query != ""]. *)
Fixpoint pieces (cur : string) (s : string) : list string :=
  match s with
  | EmptyString => [cur]
  | String c r =>
      if Ascii.eqb c "&" then cur :: pieces EmptyString r
      else pieces (cur ++ String c EmptyString) r
  end.

(** One turn of the loop of [parseQuery] on the piece [key]. *)
Definition parse_piece (st : Values.t * option error) (key : string)
    : Values.t * option error :=
  let '(m, err) := st in
  if Contains ";" key then (m, Some SemicolonError)
  else if String.eqb key "" then (m, err)
  else
    let '(key, value) := Cut "=" key in
    match QueryUnescape key with
    | inr err1 => (m, if err is None then Some err1 else err)
    | inl key =>
        match QueryUnescape value with
        | inr err1 => (m, if err is None then Some err1 else err)
        | inl value => (Values.Add m key value, err)
        end
    end.

Definition ParseQuery (query : string) : Values.t * option error :=
  if String.eqb query "" then (∅, None)
  else fold_left parse_piece (pieces EmptyString query) (∅, None).

End urlquery.

(** ** The data of oauth1.go *)

(** [cache.Value]: what an [LRUCache] stores reports its size in bytes. *)
Class Value (V : Type) := Size : V -> Z.

Record requestToken := { rtToken : string; rtSecret : string }.

#[export] Instance requestToken_Value : Value requestToken :=
  fun t => len (rtToken t) + len (rtSecret t).

Record accessToken := { atToken : string; atSecret : string }.

(** [tokenCacheItem], the type of the values that [AuthorizeRedirect] stores
    and [AuthorizeToken] reads back.  Its declaration is the one kept in the
    comment at the head of oauth1.go:
      type tokenCacheItem string
      func (i tokenCacheItem) Size() int { return len(i) }
      func (i tokenCacheItem) String() string { return string(i) } *)
Record tokenCacheItem := TokenCacheItem { item_String : string }.

#[export] Instance tokenCacheItem_Value : Value tokenCacheItem :=
  fun i => len (item_String i).

Record OAuth1Mixin := {
  AuthorizeUrl : string;
  RequestToken : string;
  AccessToken : string;
  CallbackUrl : string;
  ConsumerKey : string;
  ConsumerSecret : string
}.

(** ** The pending-token store: cache.LRUCache

    Modelled from the spec: the store is the LRU cache of the library
    code.google.com/p/vitess/go/cache, which is not under src/.  Section 4.3:
    [put] inserts or replaces and, while the total size exceeds the capacity,
    evicts the oldest-touched entry, even the one just inserted; [get] tells
    whether the key is present and counts as a touch.  The list holds the
    entries most recently touched first; the library's table maps a key to
    its list element, here found by key.  [size] and [capacity] are uint64,
    an entry's size is an int. *)
Module cache.

Definition u64 (x : Z) : Z := x mod 18446744073709551616.
Definition i64 (x : Z) : Z := (x + 9223372036854775808) mod 18446744073709551616 - 9223372036854775808.

Section LRU.
Context {V : Type} `{Value V}.

Record entry := Entry { e_key : string; e_value : V; e_size : Z }.

Record LRUCache := Cache { lru_list : list entry; lru_size : Z; lru_capacity : Z }.

Definition NewLRUCache (capacity : Z) : LRUCache := Cache [] 0 capacity.

Definition table (c : LRUCache) (key : string) : option entry :=
  List.find (fun e => String.eqb (e_key e) key) (lru_list c).

Definition remove (key : string) (l : list entry) : list entry :=
  List.filter (fun e => negb (String.eqb (e_key e) key)) l.

Definition moveToFront (c : LRUCache) (e : entry) : LRUCache :=
  Cache (e :: remove (e_key e) (lru_list c)) (lru_size c) (lru_capacity c).

(** [for size > capacity { remove list.Back() }], the list taken back first.
    [None]: the loop asked an empty list for its back element and the
    dereference of the nil element panicked. *)
Fixpoint evict (back_first : list entry) (size capacity : Z) : option (list entry * Z) :=
  match back_first with
  | [] => if capacity <? size then None else Some ([], size)
  | delValue :: r =>
      if capacity <? size then evict r (u64 (size - u64 (e_size delValue))) capacity
      else Some (back_first, size)
  end.

Definition checkCapacity (c : LRUCache) : option LRUCache :=
  match evict (rev (lru_list c)) (lru_size c) (lru_capacity c) with
  | Some (l, size) => Some (Cache (rev l) size (lru_capacity c))
  | None => None
  end.

Definition updateInplace (c : LRUCache) (element : entry) (value : V) : option LRUCache :=
  let valueSize := Size value in
  let sizeDiff := i64 (valueSize - e_size element) in
  let element' := Entry (e_key element) value valueSize in
  let c := Cache (lru_list c) (u64 (lru_size c + u64 sizeDiff)) (lru_capacity c) in
  checkCapacity (moveToFront c element').

Definition addNew (c : LRUCache) (key : string) (value : V) : option LRUCache :=
  let newEntry := Entry key value (Size value) in
  checkCapacity (Cache (newEntry :: lru_list c)
                       (u64 (lru_size c + u64 (e_size newEntry))) (lru_capacity c)).

Definition Set_ (c : LRUCache) (key : string) (value : V) : option LRUCache :=
  match table c key with
  | Some element => updateInplace c element value
  | None => addNew c key value
  end.

(** [Get] returns the nil interface value and [false] on a miss. *)
Definition Get (c : LRUCache) (key : string) : (option V * bool) * LRUCache :=
  match table c key with
  | None => ((None, false), c)
  | Some element => ((Some (e_value element), true), moveToFront c element)
  end.

(** The sum of the sizes of the entries held. *)
Definition total (l : list entry) : Z := fold_right (fun e acc => e_size e + acc) 0 l.

End LRU.

Arguments entry V : clear implicits.
Arguments LRUCache V : clear implicits.

End cache.

(** ** The world the flows run in *)

Record URL := {
  Scheme : string; Opaque : string; User : string; Host : string;
  Path : string; RawQuery : string; Fragment : string
}.

Definition set_RawQuery (u : URL) (q : string) : URL :=
  {| Scheme := Scheme u; Opaque := Opaque u; User := User u; Host := Host u;
     Path := Path u; RawQuery := q; Fragment := Fragment u |}.

(** An [http.Request]; [req_URL] is a pointer and may be nil. *)
Record Request := {
  req_URL : option URL;
  Method : string;
  Header : list (string * string)
}.

(** What [http.DefaultClient.Do] followed by [ioutil.ReadAll] comes to. *)
Inductive HttpResult :=
  | DoError (err : error)
  | ReadError (err : error)
  | Body (body : string).

(** What the flows take from their environment: the iteration order of
    maps, the clock, the first [Int63] of a generator seeded with a given
    value, [url.Parse] (nil on error) with [URL.String], and the provider. *)
Record Env := {
  range : iteration_order;
  Unix : nat -> Z;
  Int63 : Z -> Z;
  Parse : string -> option URL;
  URLString : URL -> string;
  Do : Request -> HttpResult
}.

Record World := {
  tokenCache : cache.LRUCache tokenCacheItem;
  ticks : nat;                       (* readings of the clock so far *)
  sent : list Request;               (* requests handed to the HTTP client *)
  redirects : list (string * Z)      (* calls of http.Redirect: url, code *)
}.

Inductive outcome (A : Type) :=
  | Returned (a : A)
  | Panicked (msg : string).
Arguments Returned {A} a.
Arguments Panicked {A} msg.

Definition M (A : Type) : Type := World -> outcome A * World.

Definition ret {A} (a : A) : M A := fun w => (Returned a, w).
Definition panic {A} (msg : string) : M A := fun w => (Panicked msg, w).
Definition bind {A B} (m : M A) (k : A -> M B) : M B :=
  fun w => match m w with
           | (Returned a, w') => k a w'
           | (Panicked msg, w') => (Panicked msg, w')
           end.

Notation "'let*' x ':=' m 'in' k" := (bind m (fun x => k))
  (at level 10, x name, m at level 100, k at level 200).

(** The process starts with [tokenCache = cache.NewLRUCache(1048576)]. *)
Definition defaultCapacity : Z := 1048576.

Definition initial_world : World :=
  {| tokenCache := cache.NewLRUCache defaultCapacity; ticks := O; sent := []; redirects := [] |}.

Definition with_cache (w : World) (c : cache.LRUCache tokenCacheItem) : World :=
  {| tokenCache := c; ticks := ticks w; sent := sent w; redirects := redirects w |}.

(** [time.Now().Unix()]. *)
Definition time_Now_Unix (env : Env) : M Z :=
  fun w => (Returned (Unix env (ticks w)),
            {| tokenCache := tokenCache w; ticks := S (ticks w);
               sent := sent w; redirects := redirects w |}).

(** [http.DefaultClient.Do(&req)] and the reading of the body. *)
Definition client_Do (env : Env) (req : Request) : M HttpResult :=
  fun w => (Returned (Do env req),
            {| tokenCache := tokenCache w; ticks := ticks w;
               sent := (sent w ++ [req])%list; redirects := redirects w |}).

Definition http_Redirect (urlStr : string) (code : Z) : M unit :=
  fun w => (Returned tt,
            {| tokenCache := tokenCache w; ticks := ticks w;
               sent := sent w; redirects := (redirects w ++ [(urlStr, code)])%list |}).

Definition tokenCache_Set (key : string) (value : tokenCacheItem) : M unit :=
  fun w => match cache.Set_ (tokenCache w) key value with
           | Some c => (Returned tt, with_cache w c)
           | None => (Panicked "invalid memory address or nil pointer dereference", w)
           end.

Definition tokenCache_Get (key : string) : M (option tokenCacheItem * bool) :=
  fun w => let '(r, c) := cache.Get (tokenCache w) key in (Returned r, with_cache w c).

(** Dereferencing a pointer that may be nil. *)
Definition deref {A} (p : option A) : M A :=
  match p with
  | Some a => ret a
  | None => panic "invalid memory address or nil pointer dereference"
  end.

(** [x.(tokenCacheItem)] on an interface value; nil has no dynamic type. *)
Definition assert_tokenCacheItem (x : option tokenCacheItem) : M tokenCacheItem :=
  match x with
  | Some i => ret i
  | None => panic "interface conversion: interface is nil, not tokenCacheItem"
  end.

(** [Values.Encode]. *)
Fixpoint Encode_values (keyEscaped : string) (vs : list string) (buf : string) : string :=
  match vs with
  | [] => buf
  | v :: r =>
      let buf := if 0 <? len buf then buf ++ "&" else buf in
      Encode_values keyEscaped r (buf ++ keyEscaped ++ "=" ++ url.QueryEscape v)
  end.

Fixpoint Encode_keys (v : Values.t) (keys : list string) (buf : string) : string :=
  match keys with
  | [] => buf
  | k :: r => Encode_keys v r (Encode_values (url.QueryEscape k) (default [] (v !! k)) buf)
  end.

Definition Encode (range : iteration_order) (v : Values.t) : string :=
  Encode_keys v (sort.Strings (range _ v)) "".

(** ** The flow controller *)
Section Flow.
Variable env : Env.
Variable self : OAuth1Mixin.

Definition headers : M (gmap string string) :=
  let* seed := time_Now_Unix env in
  let* now := time_Now_Unix env in
  ret (<["oauth_consumer_key" := ConsumerKey self]>
      (<["oauth_nonce" := strconv.FormatInt (Int63 env seed)]>
      (<["oauth_signature_method" := "HMAC-SHA1"]>
      (<["oauth_timestamp" := strconv.FormatInt now]>
      (<["oauth_version" := "1.0"]> ∅))))).

Definition GET (u : option URL) (header : list (string * string)) : Request :=
  {| req_URL := u; Method := "GET"; Header := header |}.

Definition AuthorizeRedirect (endpoint : string) (params : option Values.t)
    : M (option error) :=
  let requestTokenUrl := Parse env (RequestToken self) in
  let req := GET requestTokenUrl [] in
  let* headers := headers in
  let headers := <["oauth_callback" := CallbackUrl self]> headers in
  let key := url.QueryEscape (ConsumerSecret self) ++ "&" ++ url.QueryEscape "" in
  let* u := deref (req_URL req) in
  let base := requestString (range env) (Method req) (URLString env u) headers in
  let headers := <["oauth_signature" := sign base key]> headers in
  let req := GET requestTokenUrl [("Authorization", authorizationString (range env) headers)] in
  let* resp := client_Do env req in
  match resp with
  | DoError err => ret (Some err)
  | ReadError err => ret (Some err)
  | Body body =>
      match urlquery.ParseQuery body with
      | (_, Some err) => ret (Some err)
      | (parts, None) =>
          let requestToken := Values.Get parts "oauth_token" in
          let secretToken := Values.Get parts "oauth_token_secret" in
          if (len requestToken =? 0) || (len secretToken =? 0)
          then ret (Some (ErrorString body))
          else
            let* set_done := tokenCache_Set requestToken (TokenCacheItem secretToken) in
            let params := match params with None => ∅ | Some p => p end in
            let params := Values.Add params "oauth_token" requestToken in
            let* loginUrl := deref (Parse env endpoint) in
            let loginUrl := set_RawQuery loginUrl (Encode (range env) params) in
            let* redirected := http_Redirect (URLString env loginUrl) 303 in
            ret None
      end
  end.

(** [r.URL.Query()]: the parsed query of the callback, errors dropped. *)
Definition Query (rawQuery : string) : Values.t := fst (urlquery.ParseQuery rawQuery).

Definition AuthorizeToken (rawQuery : string) : M (string * string * option error) :=
  let accessTokenUrl := Parse env (AccessToken self) in
  let req := GET accessTokenUrl [] in
  let queryParams := Query rawQuery in
  let token := Values.Get queryParams "oauth_token" in
  let verifier := Values.Get queryParams "oauth_verifier" in
  let* got := tokenCache_Get token in
  let '(cachedSecretToken, ok) := got in
  let _ := if negb ok then tt (* TODO throw some kind of exception *) else tt in
  let* headers := headers in
  let headers := <["oauth_token" := token]> headers in
  let headers := <["oauth_verifier" := verifier]> headers in
  let* item := assert_tokenCacheItem cachedSecretToken in
  let key := url.QueryEscape (ConsumerSecret self) ++ "&" ++ url.QueryEscape (item_String item) in
  let* u := deref (req_URL req) in
  let base := requestString (range env) (Method req) (URLString env u) headers in
  let headers := <["oauth_signature" := sign base key]> headers in
  let req := GET accessTokenUrl [("Authorization", authorizationString (range env) headers)] in
  let* resp := client_Do env req in
  match resp with
  | DoError err => ret ("", "", Some err)
  | ReadError err => ret ("", "", Some err)
  | Body body =>
      match urlquery.ParseQuery body with
      | (_, Some err) => ret ("", "", Some err)
      | (parts, None) =>
          let requestToken := Values.Get parts "oauth_token" in
          let secretToken := Values.Get parts "oauth_token_secret" in
          ret (requestToken, secretToken, None)
      end
  end.

(** [RedirectRequired]: the callback carries no oauth_verifier. *)
Definition RedirectRequired (rawQuery : string) : bool :=
  String.eqb (Values.Get (Query rawQuery) "oauth_verifier") "".

End Flow.

(** ** What the specification says of the signer *)

(** Concatenation of a list of strings. *)
Definition sconcat (l : list string) : string := fold_right String.append "" l.

Definition last_char (s : string) : option ascii :=
  last (list_ascii_of_string s).

(** The pair [key=value] of the base string, its value percent-encoded. *)
Definition pair_of (params : gmap string string) (k : string) : string :=
  k ++ "=" ++ url.QueryEscape (param params k).

(** METHOD & encode(URL) & encode(pairs joined by &), for every mapping. *)
Definition base_string_claimed (method uri : string) (params : gmap string string)
    (keys : list string) : string :=
  method ++ "&" ++ url.QueryEscape uri ++ "&" ++
  url.QueryEscape (join "&" (map (pair_of params) keys)).

(** The same, the second '&' and the pairs being there only when the
    mapping has a key. *)
Definition base_string (method uri : string) (params : gmap string string)
    (keys : list string) : string :=
  method ++ "&" ++ url.QueryEscape uri ++
  match keys with
  | [] => ""
  | _ => "&" ++ url.QueryEscape (join "&" (map (pair_of params) keys))
  end.

Definition header_pair (params : gmap string string) (k : string) : string :=
  k ++ "=" ++ dquote ++ param params k ++ dquote.

Definition header_string (params : gmap string string) (keys : list string) : string :=
  "OAuth " ++ join "," (map (header_pair params) keys).

(** The unreserved characters: A-Z a-z 0-9 - . _ ~ *)
Definition unreserved_chars : string :=
  "ABCDEFGHIJKLMNOPQRSTUVWXYZabcdefghijklmnopqrstuvwxyz0123456789-._~".

Definition unreserved (c : ascii) : bool :=
  existsb (Ascii.eqb c) (list_ascii_of_string unreserved_chars).

(** "%XX", XX the code of the byte in upper-case hexadecimal. *)
Definition percent (c : ascii) : string :=
  String "%" (String (url.hexdigit (byte_val c / 16))
             (String (url.hexdigit (byte_val c mod 16)) "")).

(** Percent-encoding that escapes everything but the unreserved bytes. *)
Definition percent_encode_claimed (s : string) : string :=
  concat_map (fun c => if unreserved c then String c "" else percent c) s.

(** What [url.QueryEscape] does to one byte. *)
Definition escaped (c : ascii) : string :=
  if unreserved c then String c ""
  else if Ascii.eqb c " " then "+"
  else percent c.

Definition hex (s : string) : string :=
  concat_map (fun c => String (url.hexdigit (Z.shiftr (byte_val c) 4))
                         (String (url.hexdigit (Z.land (byte_val c) 15)) "")) s.

(** The keys of a map are pairwise different, so the sorted keys ascend
    strictly. *)
Definition ascending (l : list string) : Prop :=
  StronglySorted (fun a b => sort.less a b = true) l.

Definition keys_of {A} (m : gmap string A) : list string := map fst (map_to_list m).


(** ** Test doubles

    A provider that answers every request with the same result, a clock
    stopped at one second, a generator returning its seed, and URLs kept as
    a path and a query. *)
Definition path_URL (s : string) : URL :=
  {| Scheme := ""; Opaque := ""; User := ""; Host := ""; Path := s;
     RawQuery := ""; Fragment := "" |}.

Definition path_URL_String (u : URL) : string :=
  Path u ++ (if String.eqb (RawQuery u) "" then "" else "?" ++ RawQuery u).

Definition fake_env (resp : HttpResult) : Env :=
  {| range := range_default;
     Unix := fun _ => 1350000000;
     Int63 := fun seed => seed;
     Parse := fun s => Some (path_URL s);
     URLString := path_URL_String;
     Do := fun _ => resp |}.

Definition consumer : OAuth1Mixin :=
  {| AuthorizeUrl := "http://provider.example/authorize";
     RequestToken := "http://provider.example/request_token";
     AccessToken := "http://provider.example/access_token";
     CallbackUrl := "http://consumer.example/callback";
     ConsumerKey := "key";
     ConsumerSecret := "secret" |}.

(** A world whose store holds the one pair [token -> secret]. *)
Definition world_holding (token secret : string) : World :=
  with_cache initial_world
    (cache.Cache [cache.Entry token (TokenCacheItem secret) (len secret)]
                 (len secret) defaultCapacity).

(** The nonce among the headers a call produced, if it returned. *)
Definition nonce_of (r : outcome (gmap string string) * World) : option string :=
  match fst r with
  | Returned h => h !! "oauth_nonce"
  | Panicked _ => None
  end.

(** The ways the request-token leg can fail at the provider: the transport
    call errors, the body is not a well-formed query, or it lacks a non-empty
    token or secret. *)
Inductive provider_failure : HttpResult -> Prop :=
  | transport_failed err : provider_failure (DoError err)
  | read_failed err : provider_failure (ReadError err)
  | body_malformed body err :
      snd (urlquery.ParseQuery body) = Some err -> provider_failure (Body body)
  | field_missing body :
      Values.Get (fst (urlquery.ParseQuery body)) "oauth_token" = "" \/
      Values.Get (fst (urlquery.ParseQuery body)) "oauth_token_secret" = "" ->
      provider_failure (Body body).


(** ** The invariant of the store *)

(** An entry is accounted with what its value's [Size] reports, an int. *)
Definition entry_ok {V} `{Value V} (e : cache.entry V) : Prop :=
  cache.e_size e = Size (cache.e_value e) /\ 0 <= cache.e_size e < 9223372036854775808.

Definition wf {V} `{Value V} (c : cache.LRUCache V) : Prop :=
  List.NoDup (map cache.e_key (cache.lru_list c)) /\
  Forall entry_ok (cache.lru_list c) /\
  cache.lru_size c = cache.total (cache.lru_list c) /\
  cache.total (cache.lru_list c) <= cache.lru_capacity c /\
  cache.lru_capacity c <= 9223372036854775808.

(** The states [tokenCache] can be in: created by
    [cache.NewLRUCache(1048576)], then changed by [Set] and [Get] only; a Go
    string is shorter than 2^63 bytes. *)
Inductive reachable : cache.LRUCache tokenCacheItem -> Prop :=
  | reach_new : reachable (cache.NewLRUCache defaultCapacity)
  | reach_Set c key value c' :
      reachable c -> len (item_String value) < 9223372036854775808 ->
      cache.Set_ c key value = Some c' -> reachable c'
  | reach_Get c key : reachable c -> reachable (snd (cache.Get c key)).

(** The claimed cost of an entry: len(token)+len(secret). *)
Definition claimed_cost (e : cache.entry tokenCacheItem) : Z :=
  len (cache.e_key e) + len (item_String (cache.e_value e)).


(** ** What [Values.Encode] writes *)





(** ** The escaper kept in a comment

    oauth1.go ends with a replacement for [url.QueryEscape], commented out
    and marked "TODO REMOVE"; no call reaches it. *)
Module removed.

Definition isEscapable (b : ascii) : bool :=
  negb (url.between "A" "Z" b || url.between "a" "z" b || url.between "0" "9" b
        || Ascii.eqb b "-" || Ascii.eqb b "." || Ascii.eqb b "_" || Ascii.eqb b "~").

Definition QueryEscape (s : string) : string :=
  concat_map (fun c =>
    if isEscapable c
    then String "%" (String (url.hexdigit (Z.shiftr (byte_val c) 4))
                     (String (url.hexdigit (Z.land (byte_val c) 15)) ""))
    else String c "") s.

End removed.

(** ** The protected resource

    [GetAuthenticatedUser]; [Unmarshal] stands for [json.Unmarshal] into the
    caller's sink, as to the error it returns. *)
Definition GetAuthenticatedUser (env : Env) (Unmarshal : string -> option error)
    (self : OAuth1Mixin) (endpoint token secret : string) : M (option error) :=
  let endpointUrl := Parse env endpoint in
  let req := GET endpointUrl [] in
  let* headers := headers env self in
  let headers := <["oauth_token" := token]> headers in
  let key := url.QueryEscape (ConsumerSecret self) ++ "&" ++ url.QueryEscape secret in
  let* u := deref (req_URL req) in
  let base := requestString (range env) (Method req) (URLString env u) headers in
  let headers := <["oauth_signature" := sign base key]> headers in
  let req := GET endpointUrl [("Authorization", authorizationString (range env) headers)] in
  let* r := client_Do env req in
  match r with
  | DoError err => ret (Some err)
  | ReadError err => ret (Some err)
  | Body userData => ret (Unmarshal userData)
  end.

(** ** Vocabulary for the properties of the flows *)

(** The five fields [headers] produces when the clock has been read [t]
    times before. *)
Definition mandatory (env : Env) (self : OAuth1Mixin) (t : nat) : gmap string string :=
  <["oauth_consumer_key" := ConsumerKey self]>
  (<["oauth_nonce" := strconv.FormatInt (Int63 env (Unix env t))]>
  (<["oauth_signature_method" := "HMAC-SHA1"]>
  (<["oauth_timestamp" := strconv.FormatInt (Unix env (S t))]>
  (<["oauth_version" := "1.0"]> ∅)))).

(** A GET to [u] whose one header, Authorization, carries [params] and
    their signature under [key]. *)
Definition signed (env : Env) (u : URL) (params : gmap string string) (key : string)
    : Request :=
  GET (Some u)
    [("Authorization",
      authorizationString (range env)
        (<["oauth_signature" :=
             sign (requestString (range env) "GET" (URLString env u) params) key]> params))].

Fixpoint count_char (c : ascii) (s : string) : nat :=
  match s with
  | EmptyString => O
  | String x r => ((if Ascii.eqb x c then 1 else 0) + count_char c r)%nat
  end.

(** Every byte of [s] satisfies [p]. *)
Fixpoint all_chars (p : ascii -> bool) (s : string) : bool :=
  match s with
  | EmptyString => true
  | String x r => p x && all_chars p r
  end.

(** What [url.QueryEscape] can produce: unreserved bytes, '%' and '+'. *)
Definition escaped_char (c : ascii) : bool :=
  unreserved c || Ascii.eqb c "%" || Ascii.eqb c "+".

Definition base64_char (c : ascii) : bool :=
  existsb (Ascii.eqb c) (list_ascii_of_string base64.encodeStd).

(** The query of a provider's callback for token [t] and verifier [v]. *)
Definition callback_query (t v : string) : string :=
  "oauth_token=" ++ url.QueryEscape t ++ "&oauth_verifier=" ++ url.QueryEscape v.


(** A double whose [url.Parse] fails, as Go's does, on a string that starts
    with a colon ("missing protocol scheme"). *)
Definition strict_env (resp : HttpResult) : Env :=
  {| range := range_default;
     Unix := fun _ => 1350000000;
     Int63 := fun seed => seed;
     Parse := fun s => if String.prefix ":" s then None else Some (path_URL s);
     URLString := path_URL_String;
     Do := fun _ => resp |}.

(** The state after [n] more readings of the clock. *)
Definition tick (n : nat) (w : World) : World :=
  {| tokenCache := tokenCache w; ticks := (n + ticks w)%nat;
     sent := sent w; redirects := redirects w |}.

(** The errors the access-token leg hands back: those of the transport and
    of the parsing of the body. *)
Inductive exchange_error : HttpResult -> error -> Prop :=
  | exchange_do err : exchange_error (DoError err) err
  | exchange_read err : exchange_error (ReadError err) err
  | exchange_parse body err :
      snd (urlquery.ParseQuery body) = Some err -> exchange_error (Body body) err.


(** The message of the panic on a nil pointer. *)
Definition nil_deref : string := "invalid memory address or nil pointer dereference".

(** * Properties *)

Example QueryEscape_ex :
  url.QueryEscape "http://example.com/" = "http%3A%2F%2Fexample.com%2F".
Proof. reflexivity. Qed.

Example requestString_ex :
  requestString range_default "GET" "http://example.com/"
    (<["b":="x y"]> (<["a":="1"]> ∅)) =
  "GET&http%3A%2F%2Fexample.com%2F&a%3D1%26b%3Dx%2By".
Proof. vm_compute. reflexivity. Qed.


(** ** Strings *)

Lemma sapp_nil_r (s : string) : s ++ "" = s.
Proof. induction s as [|c s IH]; [reflexivity|]. change (String c (s ++ "") = String c s). now rewrite IH. Qed.

Lemma sapp_assoc (a b c : string) : (a ++ b) ++ c = a ++ (b ++ c).
Proof.
  induction a as [|x a IH]; [reflexivity|].
  change (String x ((a ++ b) ++ c) = String x (a ++ (b ++ c))). now rewrite IH.
Qed.

Lemma sapp_cons (x : ascii) (a b : string) : String x a ++ b = String x (a ++ b).
Proof. reflexivity. Qed.

Lemma slength_app (a b : string) : String.length (a ++ b) = (String.length a + String.length b)%nat.
Proof. induction a as [|x a IH]; [reflexivity|]. rewrite sapp_cons. simpl. now rewrite IH. Qed.

Lemma concat_map_app f (a b : string) :
  concat_map f (a ++ b) = concat_map f a ++ concat_map f b.
Proof.
  induction a as [|x a IH]; [reflexivity|].
  rewrite sapp_cons. simpl. now rewrite IH, sapp_assoc.
Qed.

Lemma QueryEscape_app (a b : string) :
  url.QueryEscape (a ++ b) = url.QueryEscape a ++ url.QueryEscape b.
Proof. apply concat_map_app. Qed.

(** ** Sorting *)

Lemma less_false_le (a b : string) : sort.less a b = false -> String.le b a.
Proof.
  unfold sort.less, String.ltb, String.le, String.leb.
  rewrite (String.compare_antisym a b).
  destruct (String.compare b a); simpl; intros; done.
Qed.

Lemma less_true_le (a b : string) : sort.less a b = true -> String.le a b.
Proof.
  unfold sort.less, String.ltb, String.le, String.leb.
  destruct (String.compare a b); simpl; intros; done.
Qed.

Lemma less_iff (a b : string) : sort.less a b = true <-> String.le a b /\ a <> b.
Proof.
  split.
  - intros Hl. split; [now apply less_true_le|]. intros ->.
    assert (Hle : String.le b b) by reflexivity.
    revert Hl. unfold sort.less, String.ltb.
    destruct (String.compare b b) eqn:E; try discriminate.
    assert (E' := String.compare_antisym b b). rewrite E in E'. discriminate.
  - intros [Hle Hne]. unfold sort.less, String.ltb.
    revert Hle. unfold String.le, String.leb.
    destruct (String.compare a b) eqn:E; simpl; intros; try done.
    apply String.compare_eq_iff in E. contradiction.
Qed.

Lemma insert_Permutation k l : Permutation (sort.insert k l) (k :: l).
Proof.
  induction l as [|x l IH]; simpl; [reflexivity|].
  destruct (sort.less x k); [|reflexivity].
  rewrite IH. apply perm_swap.
Qed.

Lemma Strings_Permutation l : Permutation (sort.Strings l) l.
Proof.
  induction l as [|x l IH]; simpl; [reflexivity|].
  rewrite insert_Permutation. now constructor.
Qed.

Lemma insert_Sorted k l : Sorted String.le l -> Sorted String.le (sort.insert k l).
Proof.
  induction 1 as [|x l Hs IH Hhd]; simpl; [repeat constructor|].
  destruct (sort.less x k) eqn:E.
  - constructor; [exact IH|].
    destruct Hhd as [|y l Hxy]; simpl.
    + constructor. now apply less_true_le.
    + destruct (sort.less y k); constructor; [exact Hxy|now apply less_true_le].
  - constructor; [now constructor|]. constructor. now apply less_false_le.
Qed.

Lemma Strings_Sorted l : Sorted String.le (sort.Strings l).
Proof. induction l; simpl; [constructor|now apply insert_Sorted]. Qed.

(** Whatever algorithm sorts the keys, the sorted slice is the same. *)
Lemma sort_unique (l1 l2 : list string) :
  Sorted String.le l1 -> Sorted String.le l2 -> Permutation l1 l2 -> l1 = l2.
Proof. intros. now apply (Sorted_unique String.le). Qed.

Lemma Strings_order_irrelevant (l1 l2 : list string) :
  Permutation l1 l2 -> sort.Strings l1 = sort.Strings l2.
Proof.
  intros HP. apply sort_unique; try apply Strings_Sorted.
  now rewrite !Strings_Permutation.
Qed.


Lemma Sorted_NoDup_ascending l : Sorted String.le l -> NoDup l -> ascending l.
Proof.
  intros Hs Hn. apply Sorted_StronglySorted in Hs; [|apply _].
  induction Hs as [|x l Hs IH Hall]; [constructor|].
  apply NoDup_cons in Hn as [Hx Hn].
  constructor; [now apply IH|].
  rewrite Forall_forall in *. intros y Hy. apply less_iff. split; [now apply Hall|].
  intros ->. now apply Hx.
Qed.


Lemma keys_of_NoDup {A} (m : gmap string A) : NoDup (keys_of m).
Proof. apply NoDup_fst_map_to_list. Qed.

Lemma sorted_keys_spec (range : iteration_order) {A} (m : gmap string A) :
  valid_order range ->
  ascending (sort.Strings (range A m)) /\ Permutation (sort.Strings (range A m)) (keys_of m).
Proof.
  intros Hv. assert (HP : Permutation (sort.Strings (range A m)) (keys_of m)).
  { rewrite Strings_Permutation. apply Hv. }
  split; [|exact HP].
  apply Sorted_NoDup_ascending; [apply Strings_Sorted|].
  rewrite HP. apply keys_of_NoDup.
Qed.

Lemma range_default_valid : valid_order range_default.
Proof. intros A m. reflexivity. Qed.

(** ** The base string *)

Lemma QueryEscape_amp : url.QueryEscape "&" = "%26".
Proof. reflexivity. Qed.

Lemma requestString_loop_next params n keys result :
  requestString_loop params (S n) keys result =
  result ++ sconcat (map (fun k => "%26" ++ url.QueryEscape (pair_of params k)) keys).
Proof.
  revert n result. induction keys as [|k keys IH]; intros n result.
  - simpl. now rewrite sapp_nil_r.
  - change (requestString_loop params (S n) (k :: keys) result) with
      (requestString_loop params (S (S n)) keys
         ((result ++ url.QueryEscape "&") ++ url.QueryEscape (pair_of params k))).
    rewrite IH, QueryEscape_amp. simpl. now rewrite !sapp_assoc.
Qed.

Lemma requestString_loop_first params k keys result :
  requestString_loop params 0 (k :: keys) result =
  result ++ "&" ++ url.QueryEscape (pair_of params k) ++
  sconcat (map (fun k => "%26" ++ url.QueryEscape (pair_of params k)) keys).
Proof.
  change (requestString_loop params 0 (k :: keys) result) with
    (requestString_loop params 1 keys ((result ++ "&") ++ url.QueryEscape (pair_of params k))).
  rewrite requestString_loop_next. now rewrite !sapp_assoc.
Qed.

Lemma QueryEscape_join (f : string -> string) k keys :
  url.QueryEscape (join "&" (map f (k :: keys))) =
  url.QueryEscape (f k) ++ sconcat (map (fun k => "%26" ++ url.QueryEscape (f k)) keys).
Proof.
  revert k. induction keys as [|k' keys IH]; intros k.
  - simpl. now rewrite sapp_nil_r.
  - change (join "&" (map f (k :: k' :: keys))) with (f k ++ "&" ++ join "&" (map f (k' :: keys))).
    rewrite !QueryEscape_app, IH, QueryEscape_amp. simpl. now rewrite !sapp_assoc.
Qed.

Lemma requestString_loop_spec method uri params keys :
  requestString_loop params 0 keys (method ++ "&" ++ url.QueryEscape uri) =
  base_string method uri params keys.
Proof.
  unfold base_string. destruct keys as [|k keys].
  - simpl. now rewrite ?sapp_assoc, sapp_nil_r.
  - rewrite requestString_loop_first, QueryEscape_join. now rewrite ?sapp_assoc.
Qed.

(** C1, as stated, fails on the mapping without keys: the code appends the
    second '&' with the first pair only. *)
Lemma requestString_empty_mapping :
  requestString range_default "GET" "http://example.com/" ∅ = "GET&http%3A%2F%2Fexample.com%2F" /\
  base_string_claimed "GET" "http://example.com/" ∅ (sort.Strings (keys_of (∅ : gmap string string)))
    = "GET&http%3A%2F%2Fexample.com%2F&" /\
  requestString range_default "GET" "http://example.com/" ∅ <>
  base_string_claimed "GET" "http://example.com/" ∅ (sort.Strings (keys_of (∅ : gmap string string))).
Proof. vm_compute. repeat split; try reflexivity. discriminate. Qed.

(** C1 (amended): for every method, URL and mapping, whatever order the
    keys of the mapping are iterated in, [requestString] sorts the keys
    byte-wise ascending and returns METHOD & encode(URL), followed, when the
    mapping has a key, by & and the encoding of the &-joined key=value pairs
    (each value encoded before its pair is encoded again); the result does
    not depend on the iteration or insertion order. *)
Theorem requestString_sorted_double_encoded
    (range : iteration_order) (Hv : valid_order range)
    (method uri : string) (params : gmap string string) :
  let keys := sort.Strings (keys_of params) in
  ascending keys /\ Permutation keys (keys_of params) /\
  requestString range method uri params = base_string method uri params keys /\
  (forall range', valid_order range' ->
     requestString range' method uri params = requestString range method uri params) /\
  (forall k1 v1 k2 v2, k1 <> k2 ->
     requestString range method uri (<[k1:=v1]> (<[k2:=v2]> params)) =
     requestString range method uri (<[k2:=v2]> (<[k1:=v1]> params))).
Proof.
  intros keys.
  assert (Hk : forall r, valid_order r -> sort.Strings (r _ params) = keys).
  { intros r Hr. apply Strings_order_irrelevant, Hr. }
  destruct (sorted_keys_spec range_default params range_default_valid) as [Ha Hp].
  repeat split.
  - exact Ha.
  - exact Hp.
  - unfold requestString. rewrite (Hk range Hv). apply requestString_loop_spec.
  - intros range' Hv'. unfold requestString. now rewrite (Hk range Hv), (Hk range' Hv').
  - intros k1 v1 k2 v2 Hne. now rewrite insert_insert_ne.
Qed.

Lemma requestString_sorted_double_encoded_witness :
  requestString range_default "GET" "http://example.com/"
    (<["b":="x y"]> (<["a":="1"]> ∅)) =
  base_string "GET" "http://example.com/" (<["b":="x y"]> (<["a":="1"]> ∅)) ["a"; "b"].
Proof.
  exact (proj1 (proj2 (proj2 (requestString_sorted_double_encoded range_default
    range_default_valid "GET" "http://example.com/" (<["b":="x y"]> (<["a":="1"]> ∅)))))).
Defined.

(** ** The Authorization header *)

Lemma authorizationString_loop_next params n keys result :
  authorizationString_loop params (S n) keys result =
  result ++ sconcat (map (fun k => "," ++ header_pair params k) keys).
Proof.
  revert n result. induction keys as [|k keys IH]; intros n result.
  - simpl. now rewrite sapp_nil_r.
  - change (authorizationString_loop params (S n) (k :: keys) result) with
      (authorizationString_loop params (S (S n)) keys
         ((result ++ ",") ++ header_pair params k)).
    rewrite IH. simpl. now rewrite ?sapp_assoc.
Qed.

Lemma join_comma (l : list string) x :
  join "," (x :: l) = x ++ sconcat (map (fun y => "," ++ y) l).
Proof.
  revert x. induction l as [|y l IH]; intros x.
  - simpl. now rewrite sapp_nil_r.
  - change (join "," (x :: y :: l)) with (x ++ "," ++ join "," (y :: l)).
    rewrite IH. simpl. now rewrite ?sapp_assoc.
Qed.

Lemma authorizationString_loop_spec params keys :
  authorizationString_loop params 0 keys "OAuth " = header_string params keys.
Proof.
  unfold header_string. destruct keys as [|k keys]; [reflexivity|].
  change (authorizationString_loop params 0 (k :: keys) "OAuth ") with
    (authorizationString_loop params 1 keys ("OAuth " ++ header_pair params k)).
  rewrite authorizationString_loop_next. cbn [map].
  rewrite join_comma, map_map. now rewrite ?sapp_assoc.
Qed.

Lemma last_char_app (a b : string) :
  b <> "" -> last_char (a ++ b) = last_char b.
Proof.
  intros Hb. unfold last_char. induction a as [|x a IH]; [reflexivity|].
  rewrite sapp_cons. simpl. rewrite <- IH.
  destruct (list_ascii_of_string (a ++ b)) eqn:E; [|reflexivity].
  destruct a; [|discriminate]. destruct b; [contradiction|discriminate].
Qed.

Lemma last_char_header_pair params k :
  last_char (header_pair params k) = Some (ascii_of_nat 34).
Proof.
  unfold header_pair. rewrite !last_char_app; try reflexivity; try discriminate.
  destruct (param params k); discriminate.
Qed.

Lemma last_char_join_pairs params k keys :
  last_char (join "," (map (header_pair params) (k :: keys))) = Some (ascii_of_nat 34).
Proof.
  revert k. induction keys as [|k' keys IH]; intros k.
  - apply last_char_header_pair.
  - change (join "," (map (header_pair params) (k :: k' :: keys))) with
      (header_pair params k ++ "," ++ join "," (map (header_pair params) (k' :: keys))).
    rewrite last_char_app; [|discriminate].
    rewrite last_char_app; [apply IH|].
    intros E. specialize (IH k'). rewrite E in IH. discriminate.
Qed.

(** C6: whatever order the keys are iterated in, [authorizationString]
    emits "OAuth " and then the pairs key="value", comma-separated, keys
    ascending, values as they are in the mapping; the string does not end
    with a comma; for {b: "2", a: "1"} it is OAuth a="1",b="2". *)
Theorem authorizationString_sorted_verbatim
    (range : iteration_order) (Hv : valid_order range) (params : gmap string string) :
  let keys := sort.Strings (keys_of params) in
  ascending keys /\ Permutation keys (keys_of params) /\
  authorizationString range params =
    "OAuth " ++ join "," (map (fun k => k ++ "=" ++ dquote ++ param params k ++ dquote) keys) /\
  last_char (authorizationString range params) <> Some ","%char /\
  authorizationString range (<["b":="2"]> (<["a":="1"]> ∅)) =
    "OAuth a=" ++ dquote ++ "1" ++ dquote ++ ",b=" ++ dquote ++ "2" ++ dquote.
Proof.
  intros keys.
  assert (Hk : forall m : gmap string string, sort.Strings (range _ m) = sort.Strings (keys_of m)).
  { intros m. apply Strings_order_irrelevant, Hv. }
  assert (He : forall m, authorizationString range m = header_string m (sort.Strings (keys_of m))).
  { intros m. unfold authorizationString. rewrite Hk. apply authorizationString_loop_spec. }
  destruct (sorted_keys_spec range_default params range_default_valid) as [Ha Hp].
  repeat split.
  - exact Ha.
  - exact Hp.
  - apply He.
  - rewrite He. unfold header_string. fold keys. destruct keys as [|k r].
    + vm_compute. discriminate.
    + rewrite last_char_app.
      * rewrite last_char_join_pairs. vm_compute. discriminate.
      * intros E. assert (L := last_char_join_pairs params k r). rewrite E in L. discriminate.
  - rewrite He. vm_compute. reflexivity.
Qed.

Lemma authorizationString_sorted_verbatim_witness :
  authorizationString range_default (<["b":="2"]> (<["a":="1"]> ∅)) =
    "OAuth a=" ++ dquote ++ "1" ++ dquote ++ ",b=" ++ dquote ++ "2" ++ dquote.
Proof.
  exact (proj2 (proj2 (proj2 (proj2 (authorizationString_sorted_verbatim range_default
    range_default_valid ∅))))).
Defined.

(** ** Percent-encoding *)

Lemma escape_byte_spec (c : ascii) : url.escape_byte c = escaped c.
Proof.
  destruct c as [[] [] [] [] [] [] [] []]; vm_compute; reflexivity.
Qed.

(** The escaper the claim describes is the one kept in the comment. *)
Remark removed_QueryEscape_is_claimed (s : string) :
  removed.QueryEscape s = percent_encode_claimed s.
Proof.
  unfold removed.QueryEscape, percent_encode_claimed.
  induction s as [|c s IH]; [reflexivity|]. simpl. rewrite IH. f_equal.
  destruct c as [[] [] [] [] [] [] [] []]; vm_compute; reflexivity.
Qed.

(** C4, as stated, fails on a space: the code turns it into '+'. *)
Lemma QueryEscape_space_is_plus :
  url.QueryEscape "a b" = "a+b" /\ percent_encode_claimed "a b" = "a%20b" /\
  url.QueryEscape "a b" <> percent_encode_claimed "a b".
Proof. vm_compute. repeat split; try reflexivity. discriminate. Qed.

(** C4 (amended): [url.QueryEscape] works byte by byte; it leaves exactly
    the unreserved characters A-Z a-z 0-9 - . _ ~ as they are, turns a space
    into '+', and replaces every other byte by '%' and its two upper-case
    hexadecimal digits. *)
Theorem QueryEscape_unreserved_plus_percent :
  (forall s, url.QueryEscape s = concat_map escaped s) /\
  (forall c, unreserved c = true -> url.QueryEscape (String c "") = String c "") /\
  (forall c, unreserved c = false -> url.QueryEscape (String c "") <> String c "") /\
  url.QueryEscape " " = "+" /\
  (forall c, unreserved c = false -> c <> " "%char ->
     url.QueryEscape (String c "") = percent c).
Proof.
  assert (H1 : forall c, url.QueryEscape (String c "") = escaped c).
  { intros c. unfold url.QueryEscape. simpl. now rewrite sapp_nil_r, escape_byte_spec. }
  repeat split.
  - intros s. unfold url.QueryEscape. induction s as [|c s IH]; [reflexivity|].
    simpl. now rewrite IH, escape_byte_spec.
  - intros c Hc. rewrite H1. unfold escaped. now rewrite Hc.
  - intros c Hc. rewrite H1. unfold escaped. rewrite Hc.
    destruct (Ascii.eqb c " ") eqn:E.
    + apply Ascii.eqb_eq in E. subst c. discriminate.
    + unfold percent. intros E'. injection E' as _ E'. discriminate.
  - intros c Hc Hs. rewrite H1. unfold escaped. rewrite Hc.
    apply Ascii.eqb_neq in Hs. now rewrite Hs.
Qed.

(** ** The signature *)

Lemma hmac_Sum_rfc2104 (key message : string) :
  hmac.Sum (hmac.Write (hmac.New key) message) = hmac.rfc2104 key message.
Proof.
  unfold hmac.New, hmac.rfc2104.
  destruct (sha1.BlockSize <? len key);
    unfold hmac.Sum, hmac.Write, sha1.digest_Sum, sha1.Write, sha1.Reset, sha1.New;
    cbn [hmac.opad hmac.ipad hmac.outer hmac.inner sha1.written];
    reflexivity.
Qed.

Lemma zeros_length n : String.length (hmac.zeros n) = n.
Proof. induction n; simpl; congruence. Qed.

Lemma overwrite_full (w dst : string) :
  String.length dst = String.length w -> base64.overwrite dst w = w.
Proof.
  revert dst. induction w as [|c w IH]; intros [|d dst] E; try discriminate; simpl.
  - reflexivity.
  - f_equal. apply IH. now injection E.
Qed.

Lemma EncodedLen_step (n : Z) : base64.EncodedLen (n + 3) = base64.EncodedLen n + 4.
Proof.
  unfold base64.EncodedLen. replace (n + 3 + 2) with (n + 2 + 1 * 3) by lia.
  rewrite Z.div_add by lia. lia.
Qed.

Lemma Encode_length (src : list Z) :
  Z.of_nat (String.length (base64.Encode src)) = base64.EncodedLen (Z.of_nat (List.length src)).
Proof.
  enough (H : forall l : list Z,
    Z.of_nat (String.length (base64.Encode l)) = base64.EncodedLen (Z.of_nat (List.length l)) /\
    (forall a, Z.of_nat (String.length (base64.Encode (a :: l))) =
               base64.EncodedLen (Z.of_nat (List.length (a :: l)))) /\
    (forall a b, Z.of_nat (String.length (base64.Encode (a :: b :: l))) =
               base64.EncodedLen (Z.of_nat (List.length (a :: b :: l))))) by apply H.
  induction l as [|c l (IH0 & IH1 & IH2)].
  - repeat split; intros; reflexivity.
  - split; [exact (IH1 c)|]. split; [intros a; exact (IH2 a c)|].
    intros a b.
    change (base64.Encode (a :: b :: c :: l)) with
      (let val := Z.lor (Z.lor (Z.shiftl a 16) (Z.shiftl b 8)) c in
       String (base64.enc (Z.shiftr val 18)) (String (base64.enc (Z.shiftr val 12))
        (String (base64.enc (Z.shiftr val 6)) (String (base64.enc val) (base64.Encode l))))).
    cbn [String.length List.length].
    replace (Z.of_nat (S (S (S (List.length l))))) with (Z.of_nat (List.length l) + 3) by lia.
    rewrite EncodedLen_step, <- IH0. lia.
Qed.

Lemma bytes_of_length (s : string) : List.length (sha1.bytes_of s) = String.length s.
Proof.
  unfold sha1.bytes_of. rewrite length_map.
  induction s; simpl; congruence.
Qed.

Lemma string_of_length (l : list Z) : String.length (sha1.string_of l) = List.length l.
Proof. unfold sha1.string_of. induction l; simpl; congruence. Qed.

Lemma block_length n h p : List.length h = 5%nat -> List.length (sha1.block n h p) = 5%nat.
Proof.
  revert h p. induction n as [|n IH]; intros h p Hh; cbn [sha1.block]; [exact Hh|].
  apply IH. destruct h as [|h0 [|h1 [|h2 [|h3 [|h4 [|]]]]]]; try discriminate.
  unfold sha1.block1. reflexivity.
Qed.

Lemma sha1_Sum_length (data : string) : String.length (sha1.Sum data) = 20%nat.
Proof.
  unfold sha1.Sum, sha1.sum_bytes. rewrite string_of_length.
  set (h := sha1.block _ _ _).
  assert (Hh : List.length h = 5%nat) by (apply block_length; reflexivity).
  destruct h as [|h0 [|h1 [|h2 [|h3 [|h4 [|]]]]]]; try discriminate.
  unfold sha1.be32. reflexivity.
Qed.

Lemma rfc2104_length (key text : string) : String.length (hmac.rfc2104 key text) = 20%nat.
Proof. apply sha1_Sum_length. Qed.

Lemma sign_spec (message key : string) :
  sign message key = base64.Encode (sha1.bytes_of (hmac.rfc2104 key message)).
Proof.
  unfold sign. rewrite hmac_Sum_rfc2104. apply overwrite_full.
  rewrite zeros_length. unfold len.
  rewrite <- (bytes_of_length (hmac.rfc2104 key message)), <- Encode_length.
  now rewrite Nat2Z.id.
Qed.

(** The models of SHA-1, HMAC and base64 against the published vectors
    (FIPS 180, RFC 2202, RFC 4648). *)
Example sha1_abc : hex (sha1.Sum "abc") = "A9993E364706816ABA3E25717850C26C9CD0D89D".
Proof. vm_compute. reflexivity. Qed.

Example sha1_two_blocks :
  hex (sha1.Sum "abcdbcdecdefdefgefghfghighijhijkijkljklmklmnlmnomnopnopq")
  = "84983E441C3BD26EBAAE4AA1F95129E5E54670F1".
Proof. vm_compute. reflexivity. Qed.

Example hmac_rfc2202_case2 :
  hex (hmac.rfc2104 "Jefe" "what do ya want for nothing?")
  = "EFFCDF6AE5EB2FA2D27416D5F184DF9C259A7C79".
Proof. vm_compute. reflexivity. Qed.

Example base64_rfc4648 :
  base64.Encode (sha1.bytes_of "fooba") = "Zm9vYmE=" /\
  base64.Encode (sha1.bytes_of "foobar") = "Zm9vYmFy" /\
  base64.Encode (sha1.bytes_of "foob") = "Zm9vYg==".
Proof. vm_compute. repeat split; reflexivity. Qed.

(** C2: [sign] is the base64 encoding (28 characters) of the raw 20-byte
    HMAC-SHA1 digest of the base string under the key; equal inputs give
    equal signatures; the fixed base string signed with the key "secret&"
    gives one fixed value. *)
Theorem sign_base64_hmac_sha1 :
  (forall message key,
     sign message key = base64.Encode (sha1.bytes_of (hmac.rfc2104 key message)) /\
     String.length (hmac.rfc2104 key message) = 20%nat /\
     String.length (sign message key) = 28%nat) /\
  (forall m1 k1 m2 k2, m1 = m2 -> k1 = k2 -> sign m1 k1 = sign m2 k2) /\
  sign "GET&http%3A%2F%2Fexample.com%2F&oauth_nonce%3D1" "secret&"
    = "IUn6g0fmjMkcojmc7LUhuxJQn5Q=".
Proof.
  split; [|split].
  - intros message key. split; [apply sign_spec|]. split; [apply rfc2104_length|].
    rewrite sign_spec. apply Nat2Z.inj. rewrite Encode_length, bytes_of_length, rfc2104_length.
    reflexivity.
  - intros m1 k1 m2 k2 -> ->. reflexivity.
  - vm_compute. reflexivity.
Qed.

(** ** The flows *)

Arguments sign : simpl never.
Arguments requestString : simpl never.
Arguments authorizationString : simpl never.
Arguments urlquery.ParseQuery : simpl never.
Arguments Encode : simpl never.
Arguments strconv.FormatInt : simpl never.

Lemma headers_run env self w :
  headers env self w =
  (Returned (<["oauth_consumer_key" := ConsumerKey self]>
            (<["oauth_nonce" := strconv.FormatInt (Int63 env (Unix env (ticks w)))]>
            (<["oauth_signature_method" := "HMAC-SHA1"]>
            (<["oauth_timestamp" := strconv.FormatInt (Unix env (S (ticks w)))]>
            (<["oauth_version" := "1.0"]> ∅))))),
   {| tokenCache := tokenCache w; ticks := S (S (ticks w));
      sent := sent w; redirects := redirects w |}).
Proof. reflexivity. Qed.

(** C10 fails on the code: the nonce is a function of the second the clock
    shows, so two calls within one second produce the same nonce. *)
Theorem headers_nonce_repeats_within_second env self self' w w' :
  Unix env (ticks w) = Unix env (ticks w') ->
  nonce_of (headers env self w) = nonce_of (headers env self' w') /\
  nonce_of (headers env self w) = Some (strconv.FormatInt (Int63 env (Unix env (ticks w)))).
Proof.
  intros Hsec. rewrite !headers_run. unfold nonce_of. cbn [fst].
  rewrite !lookup_insert_ne by discriminate. rewrite !lookup_insert_eq.
  now rewrite Hsec.
Qed.

Lemma headers_nonce_repeats_within_second_witness :
  nonce_of (headers (fake_env (Body "")) consumer initial_world) =
  nonce_of (headers (fake_env (Body "")) consumer
              (snd (headers (fake_env (Body "")) consumer initial_world))).
Proof.
  exact (proj1 (headers_nonce_repeats_within_second (fake_env (Body "")) consumer consumer
    initial_world (snd (headers (fake_env (Body "")) consumer initial_world)) eq_refl)).
Defined.

(** C3 fails on the code: with a token the store does not hold, the lookup
    yields the nil value, the empty branch after it does nothing, and the
    type assertion on the nil value panics; no error is returned, and no
    request is sent. *)
Theorem AuthorizeToken_unknown_token_panics env self rawQuery w :
  cache.table (tokenCache w) (Values.Get (Query rawQuery) "oauth_token") = None ->
  exists w',
    AuthorizeToken env self rawQuery w =
      (Panicked "interface conversion: interface is nil, not tokenCacheItem", w') /\
    sent w' = sent w /\ tokenCache w' = tokenCache w.
Proof.
  intros Hmiss. unfold AuthorizeToken, bind, tokenCache_Get, cache.Get.
  rewrite Hmiss. cbn [with_cache]. rewrite headers_run.
  cbn [assert_tokenCacheItem panic]. eexists. split; [reflexivity|]. split; reflexivity.
Qed.

Lemma AuthorizeToken_unknown_token_panics_witness :
  exists w',
    AuthorizeToken (fake_env (Body "oauth_token=tok&oauth_token_secret=sec")) consumer
      "oauth_token=forged&oauth_verifier=v1" initial_world =
      (Panicked "interface conversion: interface is nil, not tokenCacheItem", w') /\
    sent w' = sent initial_world /\ tokenCache w' = tokenCache initial_world.
Proof.
  apply (AuthorizeToken_unknown_token_panics
           (fake_env (Body "oauth_token=tok&oauth_token_secret=sec")) consumer
           "oauth_token=forged&oauth_verifier=v1" initial_world).
  vm_compute. reflexivity.
Defined.

(** C5 fails on the code: whatever the body of the access-token response
    parses to, [AuthorizeToken] returns its two fields with a nil error,
    empty fields included. *)
Theorem AuthorizeToken_returns_empty_fields env self rawQuery w element u body parts :
  cache.table (tokenCache w) (Values.Get (Query rawQuery) "oauth_token") = Some element ->
  Parse env (AccessToken self) = Some u ->
  (forall req, Do env req = Body body) ->
  urlquery.ParseQuery body = (parts, None) ->
  fst (AuthorizeToken env self rawQuery w) =
    Returned (Values.Get parts "oauth_token", Values.Get parts "oauth_token_secret", None).
Proof.
  intros Hhit Hu Hdo Hparse. unfold AuthorizeToken, bind, tokenCache_Get, cache.Get.
  rewrite Hhit. cbn [with_cache]. rewrite headers_run.
  cbn [assert_tokenCacheItem ret GET req_URL]. rewrite Hu. cbn [deref ret].
  unfold client_Do. rewrite Hdo, Hparse. reflexivity.
Qed.

Lemma AuthorizeToken_returns_empty_fields_witness :
  fst (AuthorizeToken (fake_env (Body "error=denied")) consumer
         "oauth_token=abc123&oauth_verifier=v1" (world_holding "abc123" "shh")) =
    Returned ("", "", None).
Proof.
  etransitivity.
  - apply (AuthorizeToken_returns_empty_fields (fake_env (Body "error=denied")) consumer
           "oauth_token=abc123&oauth_verifier=v1" (world_holding "abc123" "shh")
           (cache.Entry "abc123" (TokenCacheItem "shh") 3)
           (path_URL "http://provider.example/access_token") "error=denied"
           (<["error" := ["denied"]]> ∅)).
    + vm_compute. reflexivity.
    + reflexivity.
    + intros req. reflexivity.
    + vm_compute. reflexivity.
  - vm_compute. reflexivity.
Defined.

(** C8: when the transport call errors, or the body of the request-token
    response lacks a non-empty oauth_token or oauth_token_secret (or is not
    a well-formed query), [AuthorizeRedirect] returns an error and leaves
    the store as it was: no entry added, none removed, no redirect made. *)
Theorem AuthorizeRedirect_failure_keeps_store env self endpoint params w u r :
  Parse env (RequestToken self) = Some u ->
  (forall req, Do env req = r) ->
  provider_failure r ->
  exists err w',
    AuthorizeRedirect env self endpoint params w = (Returned (Some err), w') /\
    tokenCache w' = tokenCache w /\ redirects w' = redirects w.
Proof.
  intros Hu Hdo Hfail. unfold AuthorizeRedirect, bind. rewrite headers_run.
  cbn [GET req_URL]. rewrite Hu. cbn [deref ret]. unfold client_Do. rewrite Hdo.
  destruct Hfail as [err|err|body err Hbad|body Hmissing].
  - eexists _, _. split; [reflexivity|]. split; reflexivity.
  - eexists _, _. split; [reflexivity|]. split; reflexivity.
  - destruct (urlquery.ParseQuery body) as [parts perr]. cbn [snd] in Hbad. subst perr.
    eexists _, _. split; [reflexivity|]. split; reflexivity.
  - destruct (urlquery.ParseQuery body) as [parts [err|]] eqn:Hparse.
    + eexists _, _. split; [reflexivity|]. split; reflexivity.
    + cbn [fst] in Hmissing.
      assert (Hz : ((len (Values.Get parts "oauth_token") =? 0)
                   || (len (Values.Get parts "oauth_token_secret") =? 0)) = true).
      { destruct Hmissing as [-> | ->]; [reflexivity|]. apply orb_true_r. }
      rewrite Hz. eexists _, _. split; [reflexivity|]. split; reflexivity.
Qed.

Lemma AuthorizeRedirect_failure_keeps_store_witness :
  exists err w',
    AuthorizeRedirect (fake_env (Body "oauth_token=abc123")) consumer
      "http://provider.example/authorize" None initial_world = (Returned (Some err), w') /\
    tokenCache w' = tokenCache initial_world /\ redirects w' = redirects initial_world.
Proof.
  apply (AuthorizeRedirect_failure_keeps_store (fake_env (Body "oauth_token=abc123")) consumer
           "http://provider.example/authorize" None initial_world
           (path_URL "http://provider.example/request_token") (Body "oauth_token=abc123")).
  - reflexivity.
  - intros req. reflexivity.
  - apply field_missing. right. vm_compute. reflexivity.
Defined.

(** ** The pending-token store *)
Section CacheTheory.
Context {V : Type} `{Value V}.
Implicit Types (l : list (cache.entry V)) (e : cache.entry V) (c : cache.LRUCache V).

Lemma total_app l1 l2 : cache.total (l1 ++ l2)%list = cache.total l1 + cache.total l2.
Proof. induction l1 as [|e l1 IH]; simpl; lia. Qed.

Lemma total_rev l : cache.total (rev l) = cache.total l.
Proof. induction l as [|e l IH]; simpl; [reflexivity|]. rewrite total_app. simpl. lia. Qed.

Lemma total_nonneg l : Forall entry_ok l -> 0 <= cache.total l.
Proof. induction 1 as [|e l [_ He] _ IH]; simpl; lia. Qed.

Lemma total_firstn_le l n : Forall entry_ok l -> cache.total (firstn n l) <= cache.total l.
Proof.
  intros Hl. rewrite <- (firstn_skipn n l) at 2. rewrite total_app.
  assert (0 <= cache.total (skipn n l)); [|lia].
  apply total_nonneg. rewrite <- (firstn_skipn n l) in Hl.
  apply Forall_app in Hl. tauto.
Qed.

Lemma u64_small x : 0 <= x < 18446744073709551616 -> cache.u64 x = x.
Proof. intros. unfold cache.u64. now apply Z.mod_small. Qed.

(** The eviction loop on a store whose size is the sum of its entries: it
    never meets an empty list, drops [n] entries from the back, stops as
    soon as the rest fits, and not before. *)
Lemma evict_spec back capacity :
  Forall entry_ok back -> cache.total back < 18446744073709551616 -> 0 <= capacity ->
  exists n, (n <= List.length back)%nat /\
    cache.evict back (cache.total back) capacity
      = Some (skipn n back, cache.total (skipn n back)) /\
    cache.total (skipn n back) <= capacity /\
    (n = O \/ capacity < cache.total (skipn (pred n) back)).
Proof.
  intros Hok Hlt Hcap. induction Hok as [|e back [_ He] Hok IH].
  - exists O. simpl. destruct (capacity <? 0) eqn:E; [lia|]. repeat split; auto; lia.
  - assert (Hnn := total_nonneg back Hok).
    cbn [cache.evict]. destruct (capacity <? cache.total (e :: back)) eqn:E.
    + simpl in Hlt, E. destruct IH as (n & Hn & Hev & Hfit & Hmin); [simpl in *; lia|].
      exists (S n). change (cache.total (e :: back)) with (cache.e_size e + cache.total back).
      rewrite (u64_small (cache.e_size e)) by lia.
      replace (cache.e_size e + cache.total back - cache.e_size e) with (cache.total back) by lia.
      rewrite u64_small by lia. rewrite Hev. simpl skipn.
      repeat split; [simpl; lia|exact Hfit|]. right.
      destruct Hmin as [-> | Hmin].
      * simpl. lia.
      * destruct n; [simpl in *; lia|]. exact Hmin.
    + exists O. simpl skipn. repeat split; auto; lia.
Qed.

Lemma checkCapacity_spec l capacity :
  Forall entry_ok l -> cache.total l < 18446744073709551616 -> 0 <= capacity ->
  exists n,
    cache.checkCapacity (cache.Cache l (cache.total l) capacity)
      = Some (cache.Cache (firstn n l) (cache.total (firstn n l)) capacity) /\
    cache.total (firstn n l) <= capacity /\
    ((n < List.length l)%nat -> capacity < cache.total (firstn (S n) l)).
Proof.
  intros Hok Hlt Hcap.
  destruct (evict_spec (rev l) capacity) as (n & Hn & Hev & Hfit & Hmin).
  - now apply Forall_rev.
  - now rewrite total_rev.
  - exact Hcap.
  - rewrite total_rev in Hev. rewrite length_rev in Hn.
    exists (List.length l - n)%nat. unfold cache.checkCapacity.
    cbn [cache.lru_list cache.lru_size cache.lru_capacity]. rewrite Hev.
    rewrite !skipn_rev, !total_rev, ?rev_involutive in *.
    repeat split; [exact Hfit|]. intros Hk.
    destruct Hmin as [-> | Hmin]; [lia|].
    replace (S (List.length l - n)) with (List.length l - pred n)%nat by lia. exact Hmin.
Qed.

Lemma table_None c key :
  cache.table c key = None -> ~ In key (map cache.e_key (cache.lru_list c)).
Proof.
  unfold cache.table. intros Hf Hin. apply in_map_iff in Hin as (e & He & Hin).
  apply (find_none _ _ Hf) in Hin. simpl in Hin. rewrite He, String.eqb_refl in Hin. discriminate.
Qed.

Lemma table_Some c key e :
  cache.table c key = Some e -> In e (cache.lru_list c) /\ cache.e_key e = key.
Proof.
  unfold cache.table. intros Hf. apply find_some in Hf as [Hin He].
  split; [exact Hin|]. now apply String.eqb_eq.
Qed.

Lemma remove_absent key l : ~ In key (map cache.e_key l) -> cache.remove key l = l.
Proof.
  induction l as [|e l IH]; intros Hn; [reflexivity|]. simpl in *.
  destruct (String.eqb_spec (cache.e_key e) key) as [E|E]; simpl.
  - exfalso. apply Hn. now left.
  - f_equal. apply IH. tauto.
Qed.

Lemma remove_keys key l :
  forall k, In k (map cache.e_key (cache.remove key l)) <->
            In k (map cache.e_key l) /\ k <> key.
Proof.
  intros k. unfold cache.remove. rewrite !in_map_iff. split.
  - intros (e & He & Hin). apply filter_In in Hin as [Hin Hk]. split; [now exists e|].
    apply negb_true_iff, String.eqb_neq in Hk. congruence.
  - intros [(e & He & Hin) Hne]. exists e. split; [exact He|]. apply filter_In.
    split; [exact Hin|]. apply negb_true_iff, String.eqb_neq. congruence.
Qed.

Lemma remove_NoDup key l :
  List.NoDup (map cache.e_key l) -> List.NoDup (map cache.e_key (cache.remove key l)).
Proof.
  induction l as [|e l IH]; intros Hn; [constructor|]. simpl in *.
  apply NoDup_cons_iff in Hn as [Hx Hn].
  destruct (negb (String.eqb (cache.e_key e) key)); simpl; [|now apply IH].
  constructor; [|now apply IH]. intros Hin. apply remove_keys in Hin. tauto.
Qed.

Lemma remove_Forall (P : cache.entry V -> Prop) key l :
  Forall P l -> Forall P (cache.remove key l).
Proof.
  intros Hl. apply List.Forall_forall. intros e He. apply filter_In in He as [He _].
  now apply (proj1 (List.Forall_forall P l) Hl).
Qed.

Lemma remove_total key e l :
  List.NoDup (map cache.e_key l) -> In e l -> cache.e_key e = key ->
  cache.total (cache.remove key l) = cache.total l - cache.e_size e.
Proof.
  intros Hn Hin <-. induction l as [|x l IH]; [contradiction|]. simpl in *.
  apply NoDup_cons_iff in Hn as [Hx Hn]. destruct Hin as [-> | Hin].
  - rewrite String.eqb_refl. simpl. rewrite remove_absent by exact Hx. lia.
  - destruct (String.eqb_spec (cache.e_key x) (cache.e_key e)) as [E|E]; simpl.
    + exfalso. apply Hx. rewrite E. now apply in_map.
    + rewrite IH by assumption. lia.
Qed.

Lemma firstn_NoDup_keys n l :
  List.NoDup (map cache.e_key l) -> List.NoDup (map cache.e_key (firstn n l)).
Proof.
  revert n. induction l as [|e l IH]; intros [|n] Hn; simpl; try constructor.
  - simpl in Hn. apply NoDup_cons_iff in Hn as [Hx Hn]. intros Hin. apply Hx.
    rewrite <- (firstn_skipn n l), map_app. apply in_or_app. now left.
  - simpl in Hn. apply NoDup_cons_iff in Hn as [Hx Hn]. now apply IH.
Qed.

Lemma firstn_Forall (P : cache.entry V -> Prop) n l : Forall P l -> Forall P (firstn n l).
Proof.
  intros Hl. rewrite <- (firstn_skipn n l) in Hl. apply Forall_app in Hl. tauto.
Qed.

(** [Set] on a well-formed store: the new entry goes to the front, the old
    entry of the key is dropped, and the loop keeps the longest front part
    of that list whose entries fit the capacity. *)
Lemma Set_spec c key value :
  wf c -> 0 <= Size value < 9223372036854775808 ->
  let full := cache.Entry key value (Size value) :: cache.remove key (cache.lru_list c) in
  exists n,
    cache.Set_ c key value
      = Some (cache.Cache (firstn n full) (cache.total (firstn n full)) (cache.lru_capacity c)) /\
    cache.total (firstn n full) <= cache.lru_capacity c /\
    ((n < List.length full)%nat -> cache.lru_capacity c < cache.total (firstn (S n) full)).
Proof.
  intros (Hnd & Hok & Hsize & Hfit & Hcap) Hv full.
  assert (Hnn := total_nonneg _ Hok).
  assert (Hfull : Forall entry_ok full).
  { constructor; [split; [reflexivity|exact Hv]|]. now apply remove_Forall. }
  unfold cache.Set_. destruct (cache.table c key) as [element|] eqn:Ht.
  - apply table_Some in Ht as [Hin Hkey].
    assert (He : entry_ok element) by (now apply (proj1 (List.Forall_forall _ _) Hok)).
    destruct He as [_ He].
    assert (Hrem := remove_total key element _ Hnd Hin Hkey).
    assert (Hrnn : 0 <= cache.total (cache.remove key (cache.lru_list c))).
    { apply total_nonneg. now apply remove_Forall. }
    unfold cache.updateInplace, cache.moveToFront.
    cbn [cache.lru_list cache.lru_size cache.lru_capacity cache.e_key].
    assert (Hsz : cache.u64 (cache.lru_size c
                    + cache.u64 (cache.i64 (Size value - cache.e_size element)))
                  = cache.total full).
    { unfold cache.i64, cache.u64. rewrite Zminus_mod_idemp_l, Zplus_mod_idemp_r.
      unfold full. simpl cache.total. rewrite Hrem, Hsize.
      replace (cache.total (cache.lru_list c) +
               (Size value - cache.e_size element + 9223372036854775808 - 9223372036854775808))
        with (Size value + (cache.total (cache.lru_list c) - cache.e_size element)) by lia.
      apply Z.mod_small. lia. }
    rewrite Hsz, Hkey. apply checkCapacity_spec; [exact Hfull| |lia].
    unfold full. simpl cache.total. lia.
  - apply table_None in Ht. unfold cache.addNew. cbn [cache.e_size].
    assert (Hsz : cache.u64 (cache.lru_size c + cache.u64 (Size value)) = cache.total full).
    { unfold full. rewrite (remove_absent _ _ Ht). simpl cache.total.
      rewrite (u64_small (Size value)) by lia. rewrite u64_small by lia. lia. }
    rewrite Hsz. unfold full in *. rewrite (remove_absent _ _ Ht) in *.
    apply checkCapacity_spec; [exact Hfull| |lia]. simpl cache.total. lia.
Qed.

Lemma Set_wf c key value c' :
  wf c -> 0 <= Size value < 9223372036854775808 ->
  cache.Set_ c key value = Some c' -> wf c'.
Proof.
  intros Hwf Hv Hset. destruct (Set_spec c key value Hwf Hv) as (n & Hs & Hfit & _).
  rewrite Hs in Hset. injection Hset as <-.
  destruct Hwf as (Hnd & Hok & Hsize & _ & Hcap).
  repeat split; cbn [cache.lru_list cache.lru_size cache.lru_capacity].
  - apply firstn_NoDup_keys. simpl. constructor; [|now apply remove_NoDup].
    intros Hin. apply remove_keys in Hin. tauto.
  - apply firstn_Forall. constructor; [split; [reflexivity|exact Hv]|]. now apply remove_Forall.
  - exact Hfit.
  - exact Hcap.
Qed.

Lemma Get_wf c key : wf c -> wf (snd (cache.Get c key)).
Proof.
  intros Hwf. unfold cache.Get. destruct (cache.table c key) as [element|] eqn:Ht; [|exact Hwf].
  apply table_Some in Ht as [Hin Hkey]. destruct Hwf as (Hnd & Hok & Hsize & Hfit & Hcap).
  assert (He : entry_ok element) by (now apply (proj1 (List.Forall_forall _ _) Hok)).
  assert (Hrem := remove_total key element _ Hnd Hin Hkey).
  cbn [snd]. unfold cache.moveToFront. rewrite Hkey.
  repeat split; cbn [cache.lru_list cache.lru_size cache.lru_capacity].
  - simpl. constructor; [|now apply remove_NoDup].
    intros Hi. apply remove_keys in Hi. rewrite Hkey in Hi. tauto.
  - constructor; [exact He|]. now apply remove_Forall.
  - simpl cache.total. lia.
  - simpl cache.total. lia.
  - exact Hcap.
Qed.

End CacheTheory.

Lemma reachable_wf c : reachable c -> wf c /\ cache.lru_capacity c = defaultCapacity.
Proof.
  induction 1 as [|c key value c' Hr [IH Hc] Hv Hset|c key Hr [IH Hc]].
  - split; [|reflexivity]. repeat split; simpl; try constructor; unfold defaultCapacity; lia.
  - assert (Hs : 0 <= Size value < 9223372036854775808).
    { unfold Size, tokenCacheItem_Value, len in *. lia. }
    split; [exact (Set_wf c key value c' IH Hs Hset)|].
    destruct (Set_spec c key value IH Hs) as (n & Hn & _).
    rewrite Hn in Hset. injection Hset as <-. exact Hc.
  - split; [now apply Get_wf|]. unfold cache.Get.
    destruct (cache.table c key); exact Hc.
Qed.

(** C9, as stated, fails on the entry [AuthorizeRedirect] stores: its value
    is the secret alone, accounted with the length of the secret. *)
Lemma stored_entry_cost_is_secret_length :
  let w := snd (AuthorizeRedirect
                  (fake_env (Body "oauth_token=abc123&oauth_token_secret=shh")) consumer
                  "http://provider.example/authorize" None initial_world) in
  cache.lru_list (tokenCache w) = [cache.Entry "abc123" (TokenCacheItem "shh") 3] /\
  ~ Forall (fun e => cache.e_size e = claimed_cost e) (cache.lru_list (tokenCache w)).
Proof.
  vm_compute. split; [reflexivity|]. intros Hall. inversion Hall as [|e l Hcost _]. discriminate.
Qed.

(** C9 (amended): in every state the store reaches, each entry is accounted
    with the byte cost its value reports, len(secret) for the values the
    flows store ([requestToken.Size] is len(token)+len(secret), but no
    requestToken is stored); the size kept is the sum of these costs and is
    at most the capacity 1,048,576; every insertion returns, keeps of the
    list (new entry first, then the others by recency) the longest front
    part that fits, so that what is evicted is least recently used. *)
Theorem store_accounting_and_capacity (c : cache.LRUCache tokenCacheItem) :
  reachable c ->
  (forall t : requestToken, Size t = len (rtToken t) + len (rtSecret t)) /\
  Forall (fun e => cache.e_size e = len (item_String (cache.e_value e))) (cache.lru_list c) /\
  cache.lru_capacity c = 1048576 /\
  cache.lru_size c = cache.total (cache.lru_list c) /\
  cache.total (cache.lru_list c) <= 1048576 /\
  forall key value, len (item_String value) < 9223372036854775808 ->
    let full := cache.Entry key value (len (item_String value))
                :: cache.remove key (cache.lru_list c) in
    exists c' n,
      cache.Set_ c key value = Some c' /\
      cache.lru_list c' = firstn n full /\
      cache.lru_size c' = cache.total (cache.lru_list c') /\
      cache.total (cache.lru_list c') <= 1048576 /\
      ((n < List.length full)%nat -> 1048576 < cache.total (firstn (S n) full)).
Proof.
  intros Hr. destruct (reachable_wf c Hr) as [Hwf Hcap].
  assert (Hwf' := Hwf). destruct Hwf' as (_ & Hok & Hsize & Hfit & _).
  change defaultCapacity with 1048576 in Hcap. rewrite Hcap in Hfit.
  split; [reflexivity|]. split; [|repeat split; try assumption].
  - eapply Forall_impl; [exact Hok|]. intros e [He _]. exact He.
  - intros key value Hv full.
    assert (Hs : 0 <= Size value < 9223372036854775808).
    { unfold Size, tokenCacheItem_Value, len in *. lia. }
    destruct (Set_spec c key value Hwf Hs) as (n & Hn & Hle & Hmin).
    rewrite Hcap in Hn, Hle, Hmin.
    eexists _, n. split; [exact Hn|]. cbn [cache.lru_list cache.lru_size].
    repeat split; [exact Hle|exact Hmin].
Qed.

Lemma store_accounting_and_capacity_witness :
  exists c' n,
    cache.Set_ (cache.NewLRUCache defaultCapacity) "abc123" (TokenCacheItem "shh") = Some c' /\
    cache.lru_list c' = firstn n [cache.Entry "abc123" (TokenCacheItem "shh") 3] /\
    cache.lru_size c' = cache.total (cache.lru_list c') /\
    cache.total (cache.lru_list c') <= 1048576 /\
    ((n < 1)%nat -> 1048576 < cache.total (firstn (S n) [cache.Entry "abc123" (TokenCacheItem "shh") 3])).
Proof.
  apply (proj2 (proj2 (proj2 (proj2 (proj2
    (store_accounting_and_capacity (cache.NewLRUCache defaultCapacity) reach_new)))))
    "abc123" (TokenCacheItem "shh")).
  vm_compute. reflexivity.
Defined.

(** ** The redirect *)

Lemma len_zero (s : string) : len s = 0 <-> s = "".
Proof. unfold len. destruct s; simpl; split; intros; try reflexivity; try discriminate; lia. Qed.







Lemma Set_retains (c : cache.LRUCache tokenCacheItem) key value c' :
  wf c -> len (item_String value) < 9223372036854775808 ->
  len (item_String value) <= cache.lru_capacity c ->
  cache.Set_ c key value = Some c' ->
  cache.table c' key = Some (cache.Entry key value (len (item_String value))).
Proof.
  intros Hwf Hv Hfit Hset.
  assert (Hs : 0 <= Size value < 9223372036854775808).
  { unfold Size, tokenCacheItem_Value, len in *. lia. }
  destruct (Set_spec c key value Hwf Hs) as (n & Hn & _ & Hmin).
  rewrite Hn in Hset. injection Hset as <-.
  destruct n as [|n].
  - exfalso. cbn [List.length firstn cache.total fold_right cache.e_size] in Hmin.
    assert (Hlt : (0 < S (List.length (cache.remove key (cache.lru_list c))))%nat) by lia.
    specialize (Hmin Hlt). unfold Size, tokenCacheItem_Value in Hmin. simpl in Hmin. lia.
  - unfold cache.table. cbn [cache.lru_list firstn List.find cache.e_key].
    rewrite String.eqb_refl. reflexivity.
Qed.



(** The end-to-end scenario of the specification, run. *)
Example initiate_abc123 :
  let r := AuthorizeRedirect (fake_env (Body "oauth_token=abc123&oauth_token_secret=shh"))
             consumer "http://provider.example/authorize" None initial_world in
  fst r = Returned None /\
  tokenCache (snd r) = cache.Cache [cache.Entry "abc123" (TokenCacheItem "shh") 3] 3 1048576 /\
  redirects (snd r) = [("http://provider.example/authorize?oauth_token=abc123", 303)].
Proof. vm_compute. repeat split; reflexivity. Qed.

(** * Further properties of the code *)

(** ** Escaping and unescaping *)

Lemma all_chars_app p (a b : string) :
  all_chars p (a ++ b) = all_chars p a && all_chars p b.
Proof.
  induction a as [|x a IH]; [reflexivity|]. rewrite sapp_cons. simpl.
  now rewrite IH, andb_assoc.
Qed.

Lemma count_char_app c (a b : string) :
  count_char c (a ++ b) = (count_char c a + count_char c b)%nat.
Proof.
  induction a as [|x a IH]; [reflexivity|]. rewrite sapp_cons. simpl. rewrite IH. lia.
Qed.

Lemma escape_byte_chars (c : ascii) : all_chars escaped_char (url.escape_byte c) = true.
Proof. destruct c as [[] [] [] [] [] [] [] []]; vm_compute; reflexivity. Qed.

Lemma QueryEscape_chars (s : string) : all_chars escaped_char (url.QueryEscape s) = true.
Proof.
  unfold url.QueryEscape. induction s as [|c s IH]; [reflexivity|].
  simpl. now rewrite all_chars_app, escape_byte_chars, IH.
Qed.

Lemma all_chars_count p c (s : string) :
  p c = false -> all_chars p s = true -> count_char c s = O.
Proof.
  intros Hc. induction s as [|x s IH]; [reflexivity|]. simpl.
  intros Hs. apply andb_true_iff in Hs as [Hx Hs].
  destruct (Ascii.eqb_spec x c) as [->|_]; [congruence|]. now rewrite IH.
Qed.

Lemma QueryEscape_count c (s : string) :
  escaped_char c = false -> count_char c (url.QueryEscape s) = O.
Proof. intros Hc. apply (all_chars_count escaped_char); [exact Hc|apply QueryEscape_chars]. Qed.

Lemma QueryUnescape_escape_byte (c : ascii) (t : string) :
  urlquery.QueryUnescape (url.escape_byte c ++ t) =
  match urlquery.QueryUnescape t with
  | inl r => inl (String c r)
  | inr e => inr e
  end.
Proof. destruct c as [[] [] [] [] [] [] [] []]; reflexivity. Qed.

Lemma QueryUnescape_QueryEscape (s : string) :
  urlquery.QueryUnescape (url.QueryEscape s) = inl s.
Proof.
  unfold url.QueryEscape. induction s as [|c s IH]; [reflexivity|].
  simpl. now rewrite QueryUnescape_escape_byte, IH.
Qed.

(** ** The shape of the base string *)

Lemma sorted_keys_nil {A} (m : gmap string A) :
  sort.Strings (keys_of m) = [] <-> m = ∅.
Proof.
  split.
  - intros E. assert (HP := Strings_Permutation (keys_of m)). rewrite E in HP.
    apply Permutation_nil in HP. unfold keys_of in HP.
    apply map_eq_nil in HP. now apply map_to_list_empty_iff.
  - intros ->. unfold keys_of. now rewrite map_to_list_empty.
Qed.

(** X1: the base string is the method, '&', and a rest in which the only
    bytes are unreserved ones, '%', '+' and '&'; the rest holds no '&' when
    the mapping is empty and exactly one otherwise, the one between the
    encoded URL and the encoded parameters: no key, value or URL can add a
    separator. *)
Theorem requestString_separators
    (range : iteration_order) (Hv : valid_order range)
    (method uri : string) (params : gmap string string) :
  exists rest,
    requestString range method uri params = method ++ "&" ++ rest /\
    all_chars (fun c => escaped_char c || Ascii.eqb c "&") rest = true /\
    count_char "&" rest = (if decide (params = ∅) then 0 else 1)%nat.
Proof.
  assert (Hmono : forall s, all_chars escaped_char s = true ->
            all_chars (fun c => escaped_char c || Ascii.eqb c "&") s = true).
  { induction s as [|x s IH]; [reflexivity|]. simpl. intros Hs.
    apply andb_true_iff in Hs as [Hx Hs]. now rewrite Hx, IH. }
  unfold requestString.
  rewrite (Strings_order_irrelevant _ (keys_of params)) by apply Hv.
  rewrite requestString_loop_spec. unfold base_string.
  destruct (sort.Strings (keys_of params)) as [|k keys] eqn:E.
  - apply sorted_keys_nil in E. subst params.
    exists (url.QueryEscape uri). rewrite sapp_nil_r. split; [reflexivity|].
    split; [apply Hmono, QueryEscape_chars|].
    rewrite decide_True by reflexivity. now apply QueryEscape_count.
  - set (ps := url.QueryEscape (join "&" (map (pair_of params) (k :: keys)))).
    exists (url.QueryEscape uri ++ "&" ++ ps). split; [reflexivity|].
    split.
    + rewrite !all_chars_app. unfold ps.
      rewrite (Hmono (url.QueryEscape uri)) by apply QueryEscape_chars.
      rewrite (Hmono (url.QueryEscape (join "&" (map (pair_of params) (k :: keys)))))
        by apply QueryEscape_chars.
      reflexivity.
    + rewrite !count_char_app. unfold ps.
      rewrite !(QueryEscape_count "&") by reflexivity.
      rewrite decide_False; [reflexivity|].
      intros ->. assert (Hn := proj2 (sorted_keys_nil (∅ : gmap string string)) eq_refl).
      rewrite Hn in E. discriminate.
Qed.

Lemma requestString_separators_witness :
  exists rest,
    requestString range_default "GET" "http://example.com/?a=b&c=d"
      (<["k&1" := "x=y&z"]> ∅) = "GET" ++ "&" ++ rest /\
    all_chars (fun c => escaped_char c || Ascii.eqb c "&") rest = true /\
    count_char "&" rest = 1%nat.
Proof.
  exact (requestString_separators range_default range_default_valid "GET"
           "http://example.com/?a=b&c=d" (<["k&1" := "x=y&z"]> ∅)).
Defined.

(** ** What the flows send *)

(** X2: whatever the provider answers and however the call ends,
    [AuthorizeRedirect] hands the HTTP client exactly one request: a GET to
    the request-token URL whose only header is Authorization, carrying the
    five mandatory fields, oauth_callback and the signature of these six
    under the key QueryEscape(ConsumerSecret) followed by '&'. *)
Theorem AuthorizeRedirect_sends_one_signed_request env self endpoint params w u :
  Parse env (RequestToken self) = Some u ->
  sent (snd (AuthorizeRedirect env self endpoint params w)) =
    (sent w ++ [signed env u
                  (<["oauth_callback" := CallbackUrl self]> (mandatory env self (ticks w)))
                  (url.QueryEscape (ConsumerSecret self) ++ "&")])%list.
Proof.
  intros Hu. unfold AuthorizeRedirect, bind. rewrite headers_run.
  cbn [GET req_URL]. rewrite Hu. cbn [deref ret]. unfold client_Do.
  destruct (Do env _) as [err|err|body]; try reflexivity.
  destruct (urlquery.ParseQuery body) as [parts [err|]]; try reflexivity.
  destruct ((len (Values.Get parts "oauth_token") =? 0)
            || (len (Values.Get parts "oauth_token_secret") =? 0)); try reflexivity.
  unfold tokenCache_Set. cbn [tokenCache].
  destruct (cache.Set_ _ _ _); try reflexivity.
  destruct (Parse env endpoint); reflexivity.
Qed.

Lemma AuthorizeRedirect_sends_one_signed_request_witness :
  sent (snd (AuthorizeRedirect (fake_env (DoError (TransportError "timeout"))) consumer
               "http://provider.example/authorize" None initial_world)) =
    [signed (fake_env (DoError (TransportError "timeout")))
       (path_URL "http://provider.example/request_token")
       (<["oauth_callback" := "http://consumer.example/callback"]>
          (mandatory (fake_env (DoError (TransportError "timeout"))) consumer O))
       "secret&"].
Proof.
  exact (AuthorizeRedirect_sends_one_signed_request
           (fake_env (DoError (TransportError "timeout"))) consumer
           "http://provider.example/authorize" None initial_world
           (path_URL "http://provider.example/request_token") eq_refl).
Defined.

(** X3: when the configured request-token URL does not parse,
    [AuthorizeRedirect] panics on the nil URL before anything is sent: no
    error is returned, the store and the redirects are as before. *)
Theorem AuthorizeRedirect_unparsable_request_url env self endpoint params w :
  Parse env (RequestToken self) = None ->
  AuthorizeRedirect env self endpoint params w = (Panicked nil_deref, tick 2 w).
Proof.
  intros Hu. unfold AuthorizeRedirect, bind. rewrite headers_run.
  cbn [GET req_URL]. rewrite Hu. reflexivity.
Qed.

Lemma AuthorizeRedirect_unparsable_request_url_witness :
  AuthorizeRedirect (strict_env (Body "oauth_token=abc123&oauth_token_secret=shh"))
    {| AuthorizeUrl := ""; RequestToken := "://provider.example"; AccessToken := "";
       CallbackUrl := ""; ConsumerKey := "key"; ConsumerSecret := "secret" |}
    "http://provider.example/authorize" None initial_world
  = (Panicked nil_deref, tick 2 initial_world).
Proof.
  exact (AuthorizeRedirect_unparsable_request_url
           (strict_env (Body "oauth_token=abc123&oauth_token_secret=shh"))
           {| AuthorizeUrl := ""; RequestToken := "://provider.example"; AccessToken := "";
              CallbackUrl := ""; ConsumerKey := "key"; ConsumerSecret := "secret" |}
           "http://provider.example/authorize" None initial_world eq_refl).
Defined.

(** X4: when the login endpoint does not parse, [AuthorizeRedirect] panics
    on the nil URL only after the provider has answered and the token has
    been put into the store: the failed call leaves the new entry behind and
    makes no redirect. *)
Theorem AuthorizeRedirect_unparsable_endpoint_after_store
    env self endpoint params w u body parts :
  reachable (tokenCache w) ->
  Parse env (RequestToken self) = Some u ->
  Parse env endpoint = None ->
  (forall req, Do env req = Body body) ->
  urlquery.ParseQuery body = (parts, None) ->
  Values.Get parts "oauth_token" <> "" ->
  Values.Get parts "oauth_token_secret" <> "" ->
  len (Values.Get parts "oauth_token_secret") < 9223372036854775808 ->
  exists w',
    AuthorizeRedirect env self endpoint params w = (Panicked nil_deref, w') /\
    cache.Set_ (tokenCache w) (Values.Get parts "oauth_token")
      (TokenCacheItem (Values.Get parts "oauth_token_secret")) = Some (tokenCache w') /\
    redirects w' = redirects w.
Proof.
  intros Hr Hu Hlogin Hdo Hparse Htok Hsec Hlen.
  destruct (reachable_wf _ Hr) as [Hwf Hcap].
  assert (Hs : 0 <= Size (TokenCacheItem (Values.Get parts "oauth_token_secret"))
               < 9223372036854775808).
  { unfold Size, tokenCacheItem_Value, len in *. cbn [item_String]. lia. }
  destruct (Set_spec (tokenCache w) (Values.Get parts "oauth_token")
              (TokenCacheItem (Values.Get parts "oauth_token_secret")) Hwf Hs) as (n & Hset & _).
  unfold AuthorizeRedirect, bind. rewrite headers_run.
  cbn [GET req_URL]. rewrite Hu. cbn [deref ret]. unfold client_Do. rewrite Hdo, Hparse.
  assert (Hnz : ((len (Values.Get parts "oauth_token") =? 0)
                 || (len (Values.Get parts "oauth_token_secret") =? 0)) = false).
  { apply orb_false_iff. split; apply Z.eqb_neq; rewrite len_zero; assumption. }
  rewrite Hnz. unfold tokenCache_Set. cbn [tokenCache]. rewrite Hset.
  rewrite Hlogin. eexists. split; [reflexivity|]. split; reflexivity.
Qed.

Lemma AuthorizeRedirect_unparsable_endpoint_after_store_witness :
  exists w',
    AuthorizeRedirect (strict_env (Body "oauth_token=abc123&oauth_token_secret=shh")) consumer
      "://login" None initial_world = (Panicked nil_deref, w') /\
    cache.Set_ (tokenCache initial_world) "abc123" (TokenCacheItem "shh") = Some (tokenCache w') /\
    redirects w' = redirects initial_world.
Proof.
  assert (Hrun := AuthorizeRedirect_unparsable_endpoint_after_store
           (strict_env (Body "oauth_token=abc123&oauth_token_secret=shh")) consumer
           "://login" None initial_world
           (path_URL "http://provider.example/request_token")
           "oauth_token=abc123&oauth_token_secret=shh"
           (<["oauth_token_secret" := ["shh"]]> (<["oauth_token" := ["abc123"]]> ∅))
           reach_new eq_refl eq_refl (fun _ => eq_refl)).
  assert (Hparse : urlquery.ParseQuery "oauth_token=abc123&oauth_token_secret=shh"
                   = (<["oauth_token_secret" := ["shh"]]> (<["oauth_token" := ["abc123"]]> ∅), None))
    by (vm_compute; reflexivity).
  specialize (Hrun Hparse).
  assert (Htok : Values.Get (<["oauth_token_secret" := ["shh"]]> (<["oauth_token" := ["abc123"]]> ∅))
                   "oauth_token" = "abc123") by (vm_compute; reflexivity).
  assert (Hsec : Values.Get (<["oauth_token_secret" := ["shh"]]> (<["oauth_token" := ["abc123"]]> ∅))
                   "oauth_token_secret" = "shh") by (vm_compute; reflexivity).
  rewrite Htok, Hsec in Hrun.
  apply Hrun; [discriminate|discriminate|vm_compute; reflexivity].
Defined.

(** ** Parsing a callback *)

Lemma all_chars_Contains p c (s : string) :
  p c = false -> all_chars p s = true -> urlquery.Contains c s = false.
Proof.
  intros Hc. induction s as [|x s IH]; [reflexivity|]. simpl. intros Hs.
  apply andb_true_iff in Hs as [Hx Hs]. rewrite (IH Hs), orb_false_r.
  destruct (Ascii.eqb_spec x c) as [->|_]; [congruence|reflexivity].
Qed.

Lemma Contains_app c (a b : string) :
  urlquery.Contains c (a ++ b) = urlquery.Contains c a || urlquery.Contains c b.
Proof.
  induction a as [|x a IH]; [reflexivity|]. rewrite sapp_cons. simpl.
  now rewrite IH, orb_assoc.
Qed.

Lemma QueryEscape_Contains c (s : string) :
  escaped_char c = false -> urlquery.Contains c (url.QueryEscape s) = false.
Proof. intros Hc. apply (all_chars_Contains escaped_char); [exact Hc|apply QueryEscape_chars]. Qed.

Lemma pieces_no_amp (a cur rest : string) :
  urlquery.Contains "&" a = false ->
  urlquery.pieces cur (a ++ rest) = urlquery.pieces (cur ++ a) rest.
Proof.
  revert cur. induction a as [|x a IH]; intros cur Ha.
  - now rewrite sapp_nil_r.
  - simpl in Ha. apply orb_false_iff in Ha as [Hx Ha].
    rewrite sapp_cons. simpl. rewrite Hx, (IH _ Ha), sapp_assoc. reflexivity.
Qed.

Lemma pieces_whole (a cur : string) :
  urlquery.Contains "&" a = false -> urlquery.pieces cur a = [cur ++ a].
Proof.
  revert cur. induction a as [|x a IH]; intros cur Ha.
  - now rewrite sapp_nil_r.
  - simpl in Ha. apply orb_false_iff in Ha as [Hx Ha].
    simpl. rewrite Hx, (IH _ Ha), sapp_assoc. reflexivity.
Qed.

Lemma Cut_first (sep : ascii) (a b : string) :
  urlquery.Contains sep a = false ->
  urlquery.Cut sep (a ++ String sep b) = (a, b).
Proof.
  induction a as [|x a IH]; intros Ha.
  - change (urlquery.Cut sep (String sep b) = ("", b)). simpl. now rewrite Ascii.eqb_refl.
  - simpl in Ha. apply orb_false_iff in Ha as [Hx Ha].
    rewrite sapp_cons. simpl. rewrite Hx, (IH Ha). reflexivity.
Qed.

(** One pair key=value, both escaped, parses back to the key and the
    value. *)
Lemma parse_piece_pair (m : Values.t) (err : option error) (k x : string) :
  urlquery.parse_piece (m, err) (url.QueryEscape k ++ "=" ++ url.QueryEscape x)
  = (Values.Add m k x, err).
Proof.
  unfold urlquery.parse_piece.
  rewrite !Contains_app, !QueryEscape_Contains by reflexivity.
  change (urlquery.Contains ";" "=") with false. cbn [orb].
  assert (Hne : String.eqb (url.QueryEscape k ++ "=" ++ url.QueryEscape x) "" = false).
  { destruct (url.QueryEscape k); reflexivity. }
  rewrite Hne. change ("=" ++ url.QueryEscape x) with (String "=" (url.QueryEscape x)).
  rewrite Cut_first by (now apply QueryEscape_Contains).
  now rewrite !QueryUnescape_QueryEscape.
Qed.

Lemma Query_callback (t v : string) :
  Query (callback_query t v)
  = Values.Add (Values.Add ∅ "oauth_token" t) "oauth_verifier" v.
Proof.
  unfold Query, urlquery.ParseQuery.
  change (String.eqb (callback_query t v) "") with false. cbn iota.
  change (callback_query t v) with
    ((url.QueryEscape "oauth_token" ++ "=" ++ url.QueryEscape t)
       ++ String "&" (url.QueryEscape "oauth_verifier" ++ "=" ++ url.QueryEscape v)).
  assert (Hamp : forall k x, urlquery.Contains "&" (url.QueryEscape k ++ "=" ++ url.QueryEscape x)
                             = false).
  { intros k x. rewrite !Contains_app, !QueryEscape_Contains by reflexivity. reflexivity. }
  rewrite pieces_no_amp by apply Hamp.
  change (urlquery.pieces ?c (String "&" ?r)) with (c :: urlquery.pieces "" r).
  rewrite pieces_whole by apply Hamp.
  cbn [fold_left]. change ("" ++ ?a) with a.
  now rewrite !parse_piece_pair.
Qed.

Lemma Get_callback (t v : string) :
  Values.Get (Query (callback_query t v)) "oauth_token" = t /\
  Values.Get (Query (callback_query t v)) "oauth_verifier" = v.
Proof.
  rewrite Query_callback. unfold Values.Get, Values.Add, Values.t. split.
  - rewrite lookup_insert_ne by discriminate. rewrite lookup_insert_eq, lookup_empty. reflexivity.
  - rewrite lookup_insert_eq, lookup_insert_ne by discriminate. rewrite lookup_empty. reflexivity.
Qed.

(** X5: for the callback the provider makes, with the token and the
    verifier escaped in its query, [RedirectRequired] is true exactly when
    the verifier is empty, whatever bytes the token and the verifier hold;
    a callback without a verifier always requires the redirect. *)
Theorem RedirectRequired_callback (t v : string) :
  RedirectRequired (callback_query t v) = String.eqb v "" /\
  RedirectRequired ("oauth_token=" ++ url.QueryEscape t) = true.
Proof.
  split.
  - unfold RedirectRequired. now rewrite (proj2 (Get_callback t v)).
  - unfold RedirectRequired, Query, urlquery.ParseQuery.
    change (String.eqb ("oauth_token=" ++ url.QueryEscape t) "") with false. cbn iota.
    change ("oauth_token=" ++ url.QueryEscape t) with
      (url.QueryEscape "oauth_token" ++ "=" ++ url.QueryEscape t).
    rewrite pieces_whole.
    + cbn [fold_left]. change ("" ++ ?a) with a.
      rewrite parse_piece_pair. unfold Values.Get, Values.Add, Values.t. cbn [fst].
      rewrite lookup_insert_ne by discriminate. now rewrite lookup_empty.
    + rewrite !Contains_app, !QueryEscape_Contains by reflexivity. reflexivity.
Qed.

(** ** The access-token leg *)

(** [AuthorizeToken] run on a token the store holds. *)
Lemma AuthorizeToken_run env self rawQuery w element u :
  cache.table (tokenCache w) (Values.Get (Query rawQuery) "oauth_token") = Some element ->
  Parse env (AccessToken self) = Some u ->
  let req := signed env u
               (<["oauth_verifier" := Values.Get (Query rawQuery) "oauth_verifier"]>
                (<["oauth_token" := Values.Get (Query rawQuery) "oauth_token"]>
                 (mandatory env self (ticks w))))
               (url.QueryEscape (ConsumerSecret self) ++ "&"
                ++ url.QueryEscape (item_String (cache.e_value element))) in
  AuthorizeToken env self rawQuery w =
  (Returned
     match Do env req with
     | DoError err => ("", "", Some err)
     | ReadError err => ("", "", Some err)
     | Body body =>
         match urlquery.ParseQuery body with
         | (_, Some err) => ("", "", Some err)
         | (parts, None) =>
             (Values.Get parts "oauth_token", Values.Get parts "oauth_token_secret", None)
         end
     end,
   {| tokenCache := cache.moveToFront (tokenCache w) element;
      ticks := S (S (ticks w));
      sent := (sent w ++ [req])%list;
      redirects := redirects w |}).
Proof.
  intros Hhit Hu req. unfold AuthorizeToken, bind, tokenCache_Get, cache.Get.
  rewrite Hhit. cbn [with_cache]. rewrite headers_run.
  cbn [assert_tokenCacheItem ret GET req_URL]. rewrite Hu. cbn [deref ret].
  unfold client_Do. fold (mandatory env self (ticks w)).
  change (GET (Some u) _) with req.
  destruct (Do env req) as [err|err|body]; try reflexivity.
  destruct (urlquery.ParseQuery body) as [parts [err|]]; reflexivity.
Qed.

(** X6: on a token the store holds, [AuthorizeToken] does not panic; it
    sends exactly one request, a GET to the access-token URL signed over the
    mandatory fields, oauth_token and oauth_verifier with the key
    QueryEscape(ConsumerSecret) & QueryEscape(stored secret); the entry is
    not consumed: it stays in the store, as the most recently used. *)
Theorem AuthorizeToken_signs_with_stored_secret env self rawQuery w element u :
  cache.table (tokenCache w) (Values.Get (Query rawQuery) "oauth_token") = Some element ->
  Parse env (AccessToken self) = Some u ->
  let token := Values.Get (Query rawQuery) "oauth_token" in
  let run := AuthorizeToken env self rawQuery w in
  (exists r, fst run = Returned r) /\
  sent (snd run) =
    (sent w ++ [signed env u
                  (<["oauth_verifier" := Values.Get (Query rawQuery) "oauth_verifier"]>
                   (<["oauth_token" := token]> (mandatory env self (ticks w))))
                  (url.QueryEscape (ConsumerSecret self) ++ "&"
                   ++ url.QueryEscape (item_String (cache.e_value element)))])%list /\
  cache.lru_list (tokenCache (snd run))
    = element :: cache.remove token (cache.lru_list (tokenCache w)) /\
  cache.table (tokenCache (snd run)) token = Some element.
Proof.
  intros Hhit Hu token run. unfold run.
  rewrite (AuthorizeToken_run env self rawQuery w element u Hhit Hu). cbn [fst snd sent tokenCache].
  apply table_Some in Hhit as [_ Hkey]. fold token in Hkey.
  split; [eexists; reflexivity|]. split; [reflexivity|].
  unfold cache.moveToFront, cache.table. cbn [cache.lru_list List.find]. rewrite Hkey.
  split; [reflexivity|]. now rewrite String.eqb_refl.
Qed.

Lemma AuthorizeToken_signs_with_stored_secret_witness :
  let run := AuthorizeToken (fake_env (Body "oauth_token=tok&oauth_token_secret=sec")) consumer
               "oauth_token=abc123&oauth_verifier=v1" (world_holding "abc123" "shh") in
  cache.table (tokenCache (snd run))
    (Values.Get (Query "oauth_token=abc123&oauth_verifier=v1") "oauth_token")
  = Some (cache.Entry "abc123" (TokenCacheItem "shh") 3).
Proof.
  refine (proj2 (proj2 (proj2 (AuthorizeToken_signs_with_stored_secret
           (fake_env (Body "oauth_token=tok&oauth_token_secret=sec")) consumer
           "oauth_token=abc123&oauth_verifier=v1" (world_holding "abc123" "shh")
           (cache.Entry "abc123" (TokenCacheItem "shh") 3)
           (path_URL "http://provider.example/access_token") _ eq_refl)))).
  vm_compute. reflexivity.
Defined.

(** X7: on a token the store holds, an error of the transport, of the
    reading of the body or of its parsing is returned as it is, with two
    empty strings. *)
Theorem AuthorizeToken_hands_back_errors env self rawQuery w element u r err :
  cache.table (tokenCache w) (Values.Get (Query rawQuery) "oauth_token") = Some element ->
  Parse env (AccessToken self) = Some u ->
  (forall req, Do env req = r) ->
  exchange_error r err ->
  fst (AuthorizeToken env self rawQuery w) = Returned ("", "", Some err).
Proof.
  intros Hhit Hu Hdo Herr.
  rewrite (AuthorizeToken_run env self rawQuery w element u Hhit Hu). cbn [fst].
  rewrite Hdo. destruct Herr as [err|err|body err Hbad]; try reflexivity.
  destruct (urlquery.ParseQuery body) as [parts perr]. cbn [snd] in Hbad. now subst perr.
Qed.

Lemma AuthorizeToken_hands_back_errors_witness :
  fst (AuthorizeToken (fake_env (Body "oauth_token=%zz")) consumer
         "oauth_token=abc123&oauth_verifier=v1" (world_holding "abc123" "shh"))
  = Returned ("", "", Some (EscapeError "%zz")).
Proof.
  apply (AuthorizeToken_hands_back_errors (fake_env (Body "oauth_token=%zz")) consumer
           "oauth_token=abc123&oauth_verifier=v1" (world_holding "abc123" "shh")
           (cache.Entry "abc123" (TokenCacheItem "shh") 3)
           (path_URL "http://provider.example/access_token") (Body "oauth_token=%zz")).
  - vm_compute. reflexivity.
  - reflexivity.
  - intros req. reflexivity.
  - apply exchange_parse. vm_compute. reflexivity.
Defined.

(** ** The two legs together *)

Lemma AuthorizeRedirect_run_success env self endpoint params w u login body parts c' :
  Parse env (RequestToken self) = Some u ->
  Parse env endpoint = Some login ->
  (forall req, Do env req = Body body) ->
  urlquery.ParseQuery body = (parts, None) ->
  Values.Get parts "oauth_token" <> "" ->
  Values.Get parts "oauth_token_secret" <> "" ->
  cache.Set_ (tokenCache w) (Values.Get parts "oauth_token")
    (TokenCacheItem (Values.Get parts "oauth_token_secret")) = Some c' ->
  AuthorizeRedirect env self endpoint params w =
  (Returned None,
   {| tokenCache := c';
      ticks := S (S (ticks w));
      sent := (sent w ++ [signed env u
                 (<["oauth_callback" := CallbackUrl self]> (mandatory env self (ticks w)))
                 (url.QueryEscape (ConsumerSecret self) ++ "&")])%list;
      redirects := (redirects w ++
        [(URLString env (set_RawQuery login
            (Encode (range env)
               (Values.Add (match params with None => ∅ | Some p => p end)
                  "oauth_token" (Values.Get parts "oauth_token")))), 303)])%list |}).
Proof.
  intros Hu Hlogin Hdo Hparse Htok Hsec Hset.
  unfold AuthorizeRedirect, bind. rewrite headers_run.
  cbn [GET req_URL]. rewrite Hu. cbn [deref ret]. unfold client_Do. rewrite Hdo, Hparse.
  assert (Hnz : ((len (Values.Get parts "oauth_token") =? 0)
                 || (len (Values.Get parts "oauth_token_secret") =? 0)) = false).
  { apply orb_false_iff. split; apply Z.eqb_neq; rewrite len_zero; assumption. }
  rewrite Hnz. unfold tokenCache_Set. cbn [tokenCache]. rewrite Hset.
  rewrite Hlogin. reflexivity.
Qed.

(** X8: the two legs compose.  After [AuthorizeRedirect] has succeeded on a
    body with token and secret, the secret fitting the capacity of the
    store, [AuthorizeToken] on the provider's callback for that token (any
    verifier, any bytes in the token) finds the secret: it does not panic,
    and the request it sends is signed with the key
    QueryEscape(ConsumerSecret) & QueryEscape(secret) over the mandatory
    fields, that token and that verifier. *)
Theorem exchange_after_initiate
    env env' self endpoint params w u login body parts u' verifier :
  reachable (tokenCache w) ->
  Parse env (RequestToken self) = Some u ->
  Parse env endpoint = Some login ->
  (forall req, Do env req = Body body) ->
  urlquery.ParseQuery body = (parts, None) ->
  Values.Get parts "oauth_token" <> "" ->
  Values.Get parts "oauth_token_secret" <> "" ->
  len (Values.Get parts "oauth_token_secret") <= defaultCapacity ->
  Parse env' (AccessToken self) = Some u' ->
  let token := Values.Get parts "oauth_token" in
  let secret := Values.Get parts "oauth_token_secret" in
  let w1 := snd (AuthorizeRedirect env self endpoint params w) in
  let run := AuthorizeToken env' self (callback_query token verifier) w1 in
  (exists r, fst run = Returned r) /\
  sent (snd run) =
    (sent w1 ++ [signed env' u'
                   (<["oauth_verifier" := verifier]>
                    (<["oauth_token" := token]> (mandatory env' self (ticks w1))))
                   (url.QueryEscape (ConsumerSecret self) ++ "&" ++ url.QueryEscape secret)])%list.
Proof.
  intros Hr Hu Hlogin Hdo Hparse Htok Hsec Hfit Hu' token secret w1 run.
  destruct (reachable_wf _ Hr) as [Hwf Hcap].
  assert (Hlen : len (item_String (TokenCacheItem secret)) < 9223372036854775808).
  { cbn [item_String]. unfold secret, defaultCapacity in *. lia. }
  assert (Hs : 0 <= Size (TokenCacheItem secret) < 9223372036854775808).
  { unfold Size, tokenCacheItem_Value, len in *. lia. }
  destruct (Set_spec (tokenCache w) token (TokenCacheItem secret) Hwf Hs) as (n & Hset & _).
  assert (Hw1 := AuthorizeRedirect_run_success env self endpoint params w u login body parts _
                   Hu Hlogin Hdo Hparse Htok Hsec Hset).
  assert (Hheld : cache.table (tokenCache w1) token
                  = Some (cache.Entry token (TokenCacheItem secret) (len secret))).
  { unfold w1. rewrite Hw1. cbn [snd tokenCache].
    refine (Set_retains (tokenCache w) token (TokenCacheItem secret) _ Hwf Hlen _ Hset).
    rewrite Hcap. exact Hfit. }
  destruct (Get_callback token verifier) as [Gt Gv].
  assert (Hhit : cache.table (tokenCache w1)
                   (Values.Get (Query (callback_query token verifier)) "oauth_token")
                 = Some (cache.Entry token (TokenCacheItem secret) (len secret))).
  { now rewrite Gt. }
  unfold run. rewrite (AuthorizeToken_run env' self _ w1 _ u' Hhit Hu').
  cbn [fst snd sent cache.e_value item_String]. rewrite Gt, Gv.
  split; [eexists; reflexivity|reflexivity].
Qed.

Lemma exchange_after_initiate_witness :
  let w1 := snd (AuthorizeRedirect (fake_env (Body "oauth_token=abc123&oauth_token_secret=shh"))
                   consumer "http://provider.example/authorize" None initial_world) in
  exists r,
    fst (AuthorizeToken (fake_env (Body "oauth_token=tok&oauth_token_secret=sec")) consumer
           (callback_query "abc123" "v1") w1) = Returned r.
Proof.
  assert (Hrun := exchange_after_initiate
           (fake_env (Body "oauth_token=abc123&oauth_token_secret=shh"))
           (fake_env (Body "oauth_token=tok&oauth_token_secret=sec")) consumer
           "http://provider.example/authorize" None initial_world
           (path_URL "http://provider.example/request_token")
           (path_URL "http://provider.example/authorize")
           "oauth_token=abc123&oauth_token_secret=shh"
           (<["oauth_token_secret" := ["shh"]]> (<["oauth_token" := ["abc123"]]> ∅))
           (path_URL "http://provider.example/access_token") "v1"
           reach_new eq_refl eq_refl (fun _ => eq_refl)).
  assert (Hparse : urlquery.ParseQuery "oauth_token=abc123&oauth_token_secret=shh"
                   = (<["oauth_token_secret" := ["shh"]]> (<["oauth_token" := ["abc123"]]> ∅), None))
    by (vm_compute; reflexivity).
  specialize (Hrun Hparse).
  assert (Htok : Values.Get (<["oauth_token_secret" := ["shh"]]> (<["oauth_token" := ["abc123"]]> ∅))
                   "oauth_token" = "abc123") by (vm_compute; reflexivity).
  assert (Hsec : Values.Get (<["oauth_token_secret" := ["shh"]]> (<["oauth_token" := ["abc123"]]> ∅))
                   "oauth_token_secret" = "shh") by (vm_compute; reflexivity).
  rewrite Htok, Hsec in Hrun.
  apply Hrun; [discriminate|discriminate|vm_compute; discriminate|reflexivity].
Defined.

(** ** The query of the redirect *)


Lemma Encode_singleton (range : iteration_order) k x :
  valid_order range ->
  Encode range (Values.Add ∅ k x) = url.QueryEscape k ++ "=" ++ url.QueryEscape x.
Proof.
  intros Hv. unfold Encode.
  rewrite (Strings_order_irrelevant _ (keys_of (Values.Add ∅ k x))) by apply Hv.
  unfold Values.Add, Values.t, keys_of. rewrite lookup_empty. cbn [default app].
  rewrite insert_empty, map_to_list_singleton. cbn [map fst sort.Strings sort.insert Encode_keys].
  unfold Values.t. rewrite lookup_singleton_eq. reflexivity.
Qed.

Lemma Query_single (k x : string) :
  Query (url.QueryEscape k ++ "=" ++ url.QueryEscape x) = Values.Add ∅ k x.
Proof.
  unfold Query, urlquery.ParseQuery.
  assert (Hne : String.eqb (url.QueryEscape k ++ "=" ++ url.QueryEscape x) "" = false).
  { destruct (url.QueryEscape k); reflexivity. }
  rewrite Hne, pieces_whole.
  - cbn [fold_left]. change ("" ++ ?a) with a. now rewrite parse_piece_pair.
  - rewrite !Contains_app, !QueryEscape_Contains by reflexivity. reflexivity.
Qed.

(** X9: called without extra parameters, a successful [AuthorizeRedirect]
    redirects to the endpoint with the query oauth_token=QueryEscape(token)
    and nothing else, and that query parses back to the token the provider
    issued, whatever bytes it holds. *)
Theorem AuthorizeRedirect_nil_params_query env self endpoint w u login body parts :
  valid_order (range env) ->
  reachable (tokenCache w) ->
  Parse env (RequestToken self) = Some u ->
  Parse env endpoint = Some login ->
  (forall req, Do env req = Body body) ->
  urlquery.ParseQuery body = (parts, None) ->
  Values.Get parts "oauth_token" <> "" ->
  Values.Get parts "oauth_token_secret" <> "" ->
  len (Values.Get parts "oauth_token_secret") < 9223372036854775808 ->
  let token := Values.Get parts "oauth_token" in
  let query := "oauth_token=" ++ url.QueryEscape token in
  redirects (snd (AuthorizeRedirect env self endpoint None w)) =
    (redirects w ++ [(URLString env (set_RawQuery login query), 303)])%list /\
  Values.Get (Query query) "oauth_token" = token.
Proof.
  intros Hv Hr Hu Hlogin Hdo Hparse Htok Hsec Hlen token query.
  destruct (reachable_wf _ Hr) as [Hwf Hcap].
  assert (Hs : 0 <= Size (TokenCacheItem (Values.Get parts "oauth_token_secret"))
               < 9223372036854775808).
  { unfold Size, tokenCacheItem_Value, len in *. cbn [item_String]. lia. }
  destruct (Set_spec (tokenCache w) token
              (TokenCacheItem (Values.Get parts "oauth_token_secret")) Hwf Hs) as (n & Hset & _).
  rewrite (AuthorizeRedirect_run_success env self endpoint None w u login body parts _
             Hu Hlogin Hdo Hparse Htok Hsec Hset).
  cbn [snd redirects]. fold token. rewrite (Encode_singleton _ _ _ Hv).
  split; [reflexivity|].
  unfold query. change ("oauth_token=" ++ url.QueryEscape token) with
    (url.QueryEscape "oauth_token" ++ "=" ++ url.QueryEscape token).
  rewrite Query_single. unfold Values.Get, Values.Add, Values.t.
  rewrite lookup_insert_eq, lookup_empty. reflexivity.
Qed.

Lemma AuthorizeRedirect_nil_params_query_witness :
  redirects (snd (AuthorizeRedirect
                    (fake_env (Body "oauth_token=a%2Fb%26c&oauth_token_secret=shh")) consumer
                    "http://provider.example/authorize" None initial_world)) =
    [("http://provider.example/authorize?oauth_token=a%2Fb%26c", 303)] /\
  Values.Get (Query "oauth_token=a%2Fb%26c") "oauth_token" = "a/b&c".
Proof.
  assert (Hrun := AuthorizeRedirect_nil_params_query
           (fake_env (Body "oauth_token=a%2Fb%26c&oauth_token_secret=shh")) consumer
           "http://provider.example/authorize" initial_world
           (path_URL "http://provider.example/request_token")
           (path_URL "http://provider.example/authorize")
           "oauth_token=a%2Fb%26c&oauth_token_secret=shh"
           (<["oauth_token_secret" := ["shh"]]> (<["oauth_token" := ["a/b&c"]]> ∅))
           range_default_valid reach_new eq_refl eq_refl (fun _ => eq_refl)).
  assert (Hparse : urlquery.ParseQuery "oauth_token=a%2Fb%26c&oauth_token_secret=shh"
                   = (<["oauth_token_secret" := ["shh"]]> (<["oauth_token" := ["a/b&c"]]> ∅), None))
    by (vm_compute; reflexivity).
  specialize (Hrun Hparse).
  assert (Htok : Values.Get (<["oauth_token_secret" := ["shh"]]> (<["oauth_token" := ["a/b&c"]]> ∅))
                   "oauth_token" = "a/b&c") by (vm_compute; reflexivity).
  assert (Hsec : Values.Get (<["oauth_token_secret" := ["shh"]]> (<["oauth_token" := ["a/b&c"]]> ∅))
                   "oauth_token_secret" = "shh") by (vm_compute; reflexivity).
  rewrite Htok, Hsec in Hrun.
  apply Hrun; [discriminate|discriminate|vm_compute; reflexivity].
Defined.



(** ** The protected resource *)

(** X11: [GetAuthenticatedUser] never touches the store and makes no
    redirect.  With an endpoint that parses it sends exactly one request, a
    GET to the endpoint signed over the mandatory fields and oauth_token
    with the key QueryEscape(ConsumerSecret) & QueryEscape(secret), and
    returns the error of the transport or of the reading, or else what the
    decoding of the body returns; with an endpoint that does not parse it
    panics on the nil URL and sends nothing. *)
Theorem GetAuthenticatedUser_signs_and_keeps_store
    env Unmarshal self endpoint token secret w :
  let run := GetAuthenticatedUser env Unmarshal self endpoint token secret w in
  tokenCache (snd run) = tokenCache w /\ redirects (snd run) = redirects w /\
  match Parse env endpoint with
  | None => fst run = Panicked nil_deref /\ sent (snd run) = sent w
  | Some u =>
      let req := signed env u (<["oauth_token" := token]> (mandatory env self (ticks w)))
                   (url.QueryEscape (ConsumerSecret self) ++ "&" ++ url.QueryEscape secret) in
      sent (snd run) = (sent w ++ [req])%list /\
      fst run = Returned match Do env req with
                         | DoError err => Some err
                         | ReadError err => Some err
                         | Body userData => Unmarshal userData
                         end
  end.
Proof.
  intros run. unfold run, GetAuthenticatedUser, bind. rewrite headers_run.
  cbn [GET req_URL]. destruct (Parse env endpoint) as [u|]; cbn [deref ret panic].
  - unfold client_Do. fold (mandatory env self (ticks w)).
    change (GET (Some u) _) with
      (signed env u (<["oauth_token" := token]> (mandatory env self (ticks w)))
         (url.QueryEscape (ConsumerSecret self) ++ "&" ++ url.QueryEscape secret)).
    destruct (Do env _); repeat split; reflexivity.
  - repeat split; reflexivity.
Qed.

(** ** More on the store *)

Lemma table_remove_ne (c : cache.LRUCache tokenCacheItem) key k e :
  k <> key ->
  List.find (fun x => String.eqb (cache.e_key x) k) (e :: cache.remove key (cache.lru_list c))
  = (if String.eqb (cache.e_key e) k then Some e else cache.table c k).
Proof.
  intros Hne. cbn [List.find]. destruct (String.eqb (cache.e_key e) k); [reflexivity|].
  unfold cache.table. induction (cache.lru_list c) as [|x l IH]; [reflexivity|].
  simpl. destruct (String.eqb_spec (cache.e_key x) key) as [E|E]; simpl.
  - destruct (String.eqb_spec (cache.e_key x) k) as [E'|_]; [congruence|exact IH].
  - destruct (String.eqb (cache.e_key x) k); [reflexivity|exact IH].
Qed.

(** X12: while the store has room for the new entry, an insertion evicts
    nothing: the list is the new entry followed by the others in their order
    of recency, and the lookup of every other token gives what it gave
    before; a pending token is lost to another insertion only under
    capacity pressure. *)
Theorem Set_with_room_keeps_pending (c : cache.LRUCache tokenCacheItem) key value :
  reachable c ->
  len (item_String value) < 9223372036854775808 ->
  cache.total (cache.remove key (cache.lru_list c)) + len (item_String value)
    <= defaultCapacity ->
  exists c',
    cache.Set_ c key value = Some c' /\
    cache.lru_list c' = cache.Entry key value (len (item_String value))
                          :: cache.remove key (cache.lru_list c) /\
    forall k, k <> key -> cache.table c' k = cache.table c k.
Proof.
  intros Hr Hv Hroom. destruct (reachable_wf c Hr) as [Hwf Hcap].
  assert (Hs : 0 <= Size value < 9223372036854775808).
  { unfold Size, tokenCacheItem_Value, len in *. lia. }
  destruct (Set_spec c key value Hwf Hs) as (n & Hset & _ & Hmin).
  set (full := cache.Entry key value (Size value) :: cache.remove key (cache.lru_list c)) in *.
  assert (Hfull : Forall entry_ok full).
  { constructor; [split; [reflexivity|exact Hs]|]. apply remove_Forall. apply Hwf. }
  assert (Hn : firstn n full = full).
  { destruct (Nat.lt_ge_cases n (List.length full)) as [Hlt|Hge]; [|now apply firstn_all2].
    exfalso. specialize (Hmin Hlt).
    assert (Hle := total_firstn_le full (S n) Hfull).
    assert (Htot : cache.total full = len (item_String value)
                     + cache.total (cache.remove key (cache.lru_list c))) by reflexivity.
    rewrite Hcap in Hmin. lia. }
  rewrite Hn in Hset. eexists. split; [exact Hset|]. cbn [cache.lru_list].
  split; [reflexivity|]. intros k Hk. unfold cache.table at 1. cbn [cache.lru_list].
  unfold full. rewrite table_remove_ne by exact Hk. cbn [cache.e_key].
  destruct (String.eqb_spec key k) as [E|_]; [congruence|reflexivity].
Qed.

Lemma Set_with_room_keeps_pending_witness :
  exists c',
    cache.Set_ (tokenCache (world_holding "abc123" "shh")) "xyz" (TokenCacheItem "hush")
      = Some c' /\
    cache.lru_list c' = [cache.Entry "xyz" (TokenCacheItem "hush") 4;
                         cache.Entry "abc123" (TokenCacheItem "shh") 3] /\
    forall k, k <> "xyz" -> cache.table c' k = cache.table (tokenCache (world_holding "abc123" "shh")) k.
Proof.
  apply (Set_with_room_keeps_pending (tokenCache (world_holding "abc123" "shh"))
           "xyz" (TokenCacheItem "hush")).
  - apply (reach_Set (cache.NewLRUCache defaultCapacity) "abc123" (TokenCacheItem "shh"));
      [exact reach_new|vm_compute; reflexivity|vm_compute; reflexivity].
  - vm_compute. reflexivity.
  - vm_compute. discriminate.
Defined.

(** X13: a value larger than the capacity is not retained, and takes every
    pending token with it: the loop evicts from the back until the size
    fits, which it does only once the new entry, at the front, is gone. *)
Theorem Set_oversized_empties_store (c : cache.LRUCache tokenCacheItem) key value :
  reachable c ->
  defaultCapacity < len (item_String value) < 9223372036854775808 ->
  cache.Set_ c key value = Some (cache.Cache [] 0 defaultCapacity).
Proof.
  intros Hr Hv. destruct (reachable_wf c Hr) as [Hwf Hcap].
  assert (Hs : 0 <= Size value < 9223372036854775808).
  { unfold Size, tokenCacheItem_Value, len in *. lia. }
  destruct (Set_spec c key value Hwf Hs) as (n & Hset & Hfit & _).
  rewrite Hset, Hcap. destruct n as [|n]; [reflexivity|]. exfalso.
  assert (Hnn : 0 <= cache.total (firstn n (cache.remove key (cache.lru_list c)))).
  { apply total_nonneg, firstn_Forall, remove_Forall, Hwf. }
  assert (Htot : cache.total (firstn (S n) (cache.Entry key value (Size value)
                                 :: cache.remove key (cache.lru_list c)))
                 = len (item_String value)
                   + cache.total (firstn n (cache.remove key (cache.lru_list c)))) by reflexivity.
  rewrite Hcap in Hfit. lia.
Qed.

Lemma Set_oversized_empties_store_witness :
  cache.Set_ (tokenCache (world_holding "abc123" "shh")) "big"
    (TokenCacheItem (hmac.zeros 1048577))
  = Some (cache.Cache [] 0 defaultCapacity).
Proof.
  apply (Set_oversized_empties_store (tokenCache (world_holding "abc123" "shh")) "big"
           (TokenCacheItem (hmac.zeros 1048577))).
  - apply (reach_Set (cache.NewLRUCache defaultCapacity) "abc123" (TokenCacheItem "shh"));
      [exact reach_new|vm_compute; reflexivity|vm_compute; reflexivity].
  - split; vm_compute; reflexivity.
Defined.

(** X14: the flows keep the store within its states: from a store made by
    [NewLRUCache(1048576)], [Set] and [Get], each of [AuthorizeRedirect]
    (the secret of the provider being a Go string), [AuthorizeToken] and
    [GetAuthenticatedUser] leaves such a store, however the call ends; so
    the accounted size stays at most 1,048,576 across any sequence of
    calls. *)
Theorem flows_keep_store_invariant env self w :
  reachable (tokenCache w) ->
  (forall endpoint params,
     (forall req body, Do env req = Body body ->
        len (Values.Get (fst (urlquery.ParseQuery body)) "oauth_token_secret")
          < 9223372036854775808) ->
     let w' := snd (AuthorizeRedirect env self endpoint params w) in
     reachable (tokenCache w') /\ cache.total (cache.lru_list (tokenCache w')) <= 1048576) /\
  (forall rawQuery,
     let w' := snd (AuthorizeToken env self rawQuery w) in
     reachable (tokenCache w') /\ cache.total (cache.lru_list (tokenCache w')) <= 1048576) /\
  (forall Unmarshal endpoint token secret,
     let w' := snd (GetAuthenticatedUser env Unmarshal self endpoint token secret w) in
     reachable (tokenCache w') /\ cache.total (cache.lru_list (tokenCache w')) <= 1048576).
Proof.
  intros Hr.
  assert (Hbound : forall c, reachable c -> reachable c /\ cache.total (cache.lru_list c) <= 1048576).
  { intros c Hc. split; [exact Hc|]. destruct (reachable_wf c Hc) as [(_ & _ & _ & Hfit & _) Hcap].
    rewrite Hcap in Hfit. exact Hfit. }
  split; [|split].
  - intros endpoint params Hgo w'. apply Hbound. unfold w', AuthorizeRedirect, bind.
    rewrite headers_run. cbn [GET req_URL].
    destruct (Parse env (RequestToken self)) as [u|]; cbn [deref ret panic]; [|exact Hr].
    unfold client_Do. destruct (Do env _) as [err|err|body] eqn:Hdo; try exact Hr.
    specialize (Hgo _ _ Hdo).
    destruct (urlquery.ParseQuery body) as [parts [err|]]; try exact Hr.
    cbn [fst] in Hgo.
    destruct ((len (Values.Get parts "oauth_token") =? 0)
              || (len (Values.Get parts "oauth_token_secret") =? 0)); try exact Hr.
    unfold tokenCache_Set. cbn [tokenCache].
    destruct (cache.Set_ _ _ _) as [c'|] eqn:Hset; [|exact Hr].
    assert (Hc' : reachable c').
    { exact (reach_Set (tokenCache w) (Values.Get parts "oauth_token")
               (TokenCacheItem (Values.Get parts "oauth_token_secret")) c' Hr Hgo Hset). }
    destruct (Parse env endpoint); exact Hc'.
  - intros rawQuery w'. apply Hbound. unfold w', AuthorizeToken, bind, tokenCache_Get.
    assert (Hg := reach_Get _ (Values.Get (Query rawQuery) "oauth_token") Hr).
    destruct (cache.Get (tokenCache w) _) as [[v ok] c'] eqn:Hget. cbn [snd] in Hg.
    cbn [with_cache]. rewrite headers_run.
    destruct v as [item|]; cbn [assert_tokenCacheItem ret panic]; [|exact Hg].
    cbn [GET req_URL]. destruct (Parse env (AccessToken self)) as [u|];
      cbn [deref ret panic]; [|exact Hg].
    unfold client_Do. destruct (Do env _) as [err|err|body]; try exact Hg.
    destruct (urlquery.ParseQuery body) as [parts [err|]]; exact Hg.
  - intros Unmarshal endpoint token secret w'. apply Hbound.
    unfold w', GetAuthenticatedUser, bind. rewrite headers_run. cbn [GET req_URL].
    destruct (Parse env endpoint) as [u|]; cbn [deref ret panic]; [|exact Hr].
    unfold client_Do. destruct (Do env _); exact Hr.
Qed.

Lemma flows_keep_store_invariant_witness :
  let w' := snd (AuthorizeToken (fake_env (Body "oauth_token=tok&oauth_token_secret=sec")) consumer
                   "oauth_token=abc123&oauth_verifier=v1" initial_world) in
  reachable (tokenCache w') /\ cache.total (cache.lru_list (tokenCache w')) <= 1048576.
Proof.
  exact (proj1 (proj2 (flows_keep_store_invariant
           (fake_env (Body "oauth_token=tok&oauth_token_secret=sec")) consumer
           initial_world reach_new)) "oauth_token=abc123&oauth_verifier=v1").
Defined.

(** ** The form of a signature *)

Lemma enc_base64_char (v : Z) : base64_char (base64.enc v) = true.
Proof.
  unfold base64.enc. change 63 with (Z.ones 6). rewrite Z.land_ones by lia.
  assert (Hn : (Z.to_nat (v mod 2 ^ 6) < 64)%nat).
  { assert (0 <= v mod 2 ^ 6 < 64) by (apply Z.mod_pos_bound; lia). lia. }
  set (n := Z.to_nat (v mod 2 ^ 6)) in *. clearbody n.
  do 64 (destruct n as [|n]; [reflexivity|]). lia.
Qed.

(** X15: every signature is 27 characters of the base64 alphabet followed
    by one '=': the signature that [authorizationString] then inserts
    verbatim always holds a byte that is not unreserved. *)
Theorem sign_form (message key : string) :
  all_chars base64_char (String.substring 0 27 (sign message key)) = true /\
  String.substring 27 1 (sign message key) = "=" /\
  String.length (sign message key) = 28%nat /\
  url.QueryEscape (sign message key) <> sign message key.
Proof.
  rewrite sign_spec.
  assert (Hlen : List.length (sha1.bytes_of (hmac.rfc2104 key message)) = 20%nat).
  { now rewrite bytes_of_length, rfc2104_length. }
  set (raw := sha1.bytes_of (hmac.rfc2104 key message)) in *. clearbody raw.
  do 20 (destruct raw as [|? raw]; [discriminate|]).
  destruct raw; [|discriminate]. clear Hlen.
  cbn [base64.Encode String.substring all_chars String.length].
  rewrite !enc_base64_char. repeat split.
  unfold url.QueryEscape. cbn [concat_map].
  intros E. apply (f_equal String.length) in E. rewrite !slength_app in E.
  cbn [String.length] in E.
  change (String.length (url.escape_byte "=")) with 3%nat in E.
  assert (Hone : forall c, (1 <= String.length (url.escape_byte c))%nat).
  { intros c. destruct c as [[] [] [] [] [] [] [] []]; vm_compute; lia. }
  repeat match goal with
         | H : context [String.length (url.escape_byte (base64.enc ?v))] |- _ =>
             let n := fresh "n" in let Hn := fresh "Hn" in
             assert (Hn := Hone (base64.enc v));
             set (n := String.length (url.escape_byte (base64.enc v))) in *; clearbody n
         end.
  lia.
Qed.

(** X16: when the configured access-token URL does not parse,
    [AuthorizeToken] on a token the store holds panics on the nil URL:
    nothing is sent and no error is returned, but the lookup has already
    moved the entry to the front of the store. *)
Theorem AuthorizeToken_unparsable_access_url env self rawQuery w element :
  cache.table (tokenCache w) (Values.Get (Query rawQuery) "oauth_token") = Some element ->
  Parse env (AccessToken self) = None ->
  AuthorizeToken env self rawQuery w =
    (Panicked nil_deref,
     {| tokenCache := cache.moveToFront (tokenCache w) element;
        ticks := S (S (ticks w)); sent := sent w; redirects := redirects w |}).
Proof.
  intros Hhit Hu. unfold AuthorizeToken, bind, tokenCache_Get, cache.Get.
  rewrite Hhit. cbn [with_cache]. rewrite headers_run.
  cbn [assert_tokenCacheItem ret GET req_URL]. rewrite Hu. reflexivity.
Qed.

Lemma AuthorizeToken_unparsable_access_url_witness :
  fst (AuthorizeToken (strict_env (Body ""))
         {| AuthorizeUrl := ""; RequestToken := ""; AccessToken := "://provider.example";
            CallbackUrl := ""; ConsumerKey := "key"; ConsumerSecret := "secret" |}
         "oauth_token=abc123&oauth_verifier=v1" (world_holding "abc123" "shh"))
  = Panicked nil_deref.
Proof.
  refine (f_equal fst (AuthorizeToken_unparsable_access_url (strict_env (Body ""))
           {| AuthorizeUrl := ""; RequestToken := ""; AccessToken := "://provider.example";
              CallbackUrl := ""; ConsumerKey := "key"; ConsumerSecret := "secret" |}
           "oauth_token=abc123&oauth_verifier=v1" (world_holding "abc123" "shh")
           (cache.Entry "abc123" (TokenCacheItem "shh") 3) _ eq_refl)).
  vm_compute. reflexivity.
Defined.
